(* ===== verification/_CoqProject ===== *)
-Q . S2P
Prelude.v
Codec.v
Validator.v
Rules.v
Placement.v
Solver.v
Search.v
Machine.v
CheckApi.v
Api.v
