(* ===== verification/Prelude.v ===== *)
(** * A verification development for fcc-sudoku's solver and checker

    The program is [src/controllers/sudoku-solver.js], a JavaScript class
    [SudokuSolver] with two module-level helpers.  Its parts, leaves first:

    - the codec: [buildPuzzle] reads an 81-character puzzle string into a
      9x9 array of numbers (['.'] is 0, anything else goes through
      [parseInt]); [buildPuzzleString] writes a 9x9 array back ([0] is
      ['.'], anything else goes through [toString]);
    - the validator: [validate] answers the three puzzle-string errors;
    - the placement checker: [checkRowPlacement], [checkColPlacement] and
      [checkRegionPlacement] re-decode the puzzle string and scan one row,
      column or 3x3 region for the candidate value; [check] (used by the
      solver) re-encodes the solver's array into a string first and accepts
      outright a value that already sits in the target cell;
    - the solver: [solveLoc] is a recursive backtracking search over the
      cells in row-major order that mutates the array in place, and [solve]
      validates, decodes, searches and encodes the answer;
    - the public check: [checkStr] validates the three request fields and
      reports every conflicting unit, in the order row, column, region.

    The HTTP routes that call [solve] and [checkStr] are not in [src/];
    they only pass a request's fields to these two operations, so the
    theorems are stated of [solve] and [checkStr] directly.  [src/tests/]
    holds the unit and functional suites; their puzzle and its solution
    ([test_puzzle], [test_solution]) are the concrete inputs of the
    witnesses.

    ** Files

    - [Prelude] (this file): the JavaScript values the program handles
      ([JsNum]: an integer or NaN), strict equality [===], the one-character
      [parseInt], [isNaN], [toLowerCase], [indexOf] and [toString] it uses,
      the response objects ([Response]), and the generic lemmas on strings,
      [seq] and [forallb] shared by the components, with the hint database
      [sudoku].
    - [Codec]: [Grid], [buildPuzzle], [buildPuzzleString]; the grid shape
      invariant [grid_wf]; both round trips.
    - [Validator]: [validate] and its error order; what the string [check]
      rebuilds from a validated puzzle looks like.
    - [Rules]: the abstract rules of Sudoku on a [Grid] (units, peers,
      consistency, a solution of a puzzle): the specification the solver
      is refined against.
    - [Placement]: the three scans and the solver's [check]; their meaning
      on grids; [check] meets the interface the solver is proved against.
    - [Solver]: [solveLoc] (explicit state passing: the array is threaded
      through the calls, and the success flag returned with it) and
      [solve]; termination, state restoration on failure, soundness and
      completeness with respect to [Rules].
    - [Search]: the search of spec section 4.4 as a pure function
      ([ref_search]: structural recursion over the cells still to visit,
      the rules' test [unit_free], nothing mutated), and the lexicographic
      order on arrays along those cells.
    - [Machine]: the state machine of spec section 4.4, with the explicit
      stack section 9 allows: an inductive step relation, the same step as
      a function, and runs of it.
    - [CheckApi]: [checkStr], every branch of it.
    - [Api]: the two public operations together.

    ** How the components meet

    The solver is proved against an interface, not against [check] itself:
    [Placement.placement_oracle] states what a placement test promises (it
    accepts a value exactly when the value already sits in the cell or no
    peer of the cell holds it).  [Solver] writes the search in a section
    over an arbitrary test and proves termination and restoration for any
    test, soundness and completeness under the interface; [check_oracle]
    in [Placement] discharges the interface for the program's [check] on
    well-formed arrays, and [solve] instantiates the search with it.

    ** The theorems

    - [Solver]: [solve] is sound (every answer decodes to a solution of
      the puzzle when its givens obey the rules), complete (a solvable
      puzzle always gets an answer), hence returns the unique solution when
      there is one, and answers ["Puzzle cannot be solved"] exactly when no
      solution exists; [solveLoc] terminates within its fuel, leaves the
      array as it found it when it fails, and returns an array that keeps
      the givens and obeys the rules when it succeeds.
    - [Search]: [solveLoc] computes the reference search for any test
      meeting [placement_oracle] (an equivalence: its writes, resets and
      column wrap are invisible), [solve] answers what the reference search
      finds, and of several solutions [solve] answers the lexicographically
      first in row-major order, the determinism of spec section 4.4.
    - [Machine]: the machine is deterministic, a run reaches at most one
      halted state, and from a well-formed array it reaches exactly the
      halted state the reference search predicts; so [solve] answers a
      solution exactly when the machine halts in [Done] with it and the
      error exactly when it halts in [Fail] (refinement).
    - [Solver], the type invariant: whatever the placement test, the array
      stays a 9x9 array of numbers 0 to 9; [Validator], the bounds: a
      validated string decodes to numbers 0 to 9, and NaN exactly at a
      backslash; the string [check] rebuilds from it is 81 characters plus
      two per backslash; and a backslash written over any cell of a puzzle
      of digits and dots passes [validate].
    - [Placement]: [check] meets [placement_oracle]; each scan equals its
      meaning on the decoded array.
    - [CheckApi]: every answer of [checkStr], its error order, that a
      value already in its cell is reported valid, the coordinate and
      value tests exactly, and that any conflict list, whatever the
      fields, is a non-empty sublist of [row, column, region].
    - [Api]: every value [solve] fills into an empty cell is one that
      [checkStr] reports valid on the original puzzle.
    - [Codec] and [Validator]: both round trips of the codec; which strings
      [validate] accepts and the error each rejected one gets.

    ** Fuel

    [solveLoc] recurses on a fuel argument.  Every call moves one cell
    forward in row-major order ([pos row col = 9 * row + col]) and the
    call at [(8, 9)] returns, so from [(row, col)] at most [82 - pos row col]
    nested calls are made; [solve] gives 82, and [Solver.solveLoc_total]
    shows it never runs out.  The candidate loop [try_nums] is structural
    on the list [seq 1 9].

    ** What the modelling showed

    A filled puzzle is returned unchanged even when it breaks the rules
    (the search never checks a filled cell); a backslash passes [validate]
    (the regular expression's class holds an escaped backslash), decodes to
    NaN and is re-encoded as ["NaN"] by [check], which shifts every later
    cell of the string the scans read; [checkStr] answers a value [" "]
    as valid and a coordinate ["A "] by checking its row only; and a ['0']
    in a puzzle does not survive a decode-encode round trip.

    ** Modelling choices and what is not modelled

    - JavaScript strings are Stdlib [string]s of ASCII characters; a
      character outside ASCII is not modelled.
    - A JavaScript number the program handles is an integer or NaN
      ([JsNum]); [undefined] (an array index out of range) is [None].
    - Request fields are [option string]: [None] is an absent field.
    - The array is a list of rows updated by index ([set2]); the solver
      only writes inside the 9x9 array, so the JavaScript behaviour out of
      range never arises.
    - The HTTP transport (spec section 6) is not in [src/] and is not
      modelled: its routes pass the body's fields to [solve] and
      [checkStr] and serialise the answer, which is I/O.
    - The assertions of [src/tests/] are runs of the program on fixed
      inputs; they are not kept as theorems, the general theorems above
      cover the behaviour they test.
    - The JavaScript builtins the code calls are given their meaning on the
      values the program handles, in this file; they are the language's
      library, not code of the repository.  *)


From Stdlib Require Import ZArith String Ascii DecimalString.
From stdpp Require Import base list strings.

Declare Scope js_scope.
Delimit Scope js_scope with js.

(** ** JavaScript numbers as the program handles them *)

(** Every number of the program is an integer (a digit, a cell value, an
    index, [-1] from [indexOf]) or [NaN] (from [parseInt] of a non-digit). *)
Inductive JsNum : Type :=
| Num (z : Z)
| NaN.

#[export] Instance JsNum_eq_dec : EqDecision JsNum.
Proof. solve_decision. Defined.

(** Strict equality [x === v] between a possibly [undefined] array element
    and a number: [NaN] and [undefined] equal nothing. *)
Definition js_strict_eq (x : option JsNum) (v : JsNum) : bool :=
  match x, v with
  | Some (Num a), Num b => Z.eqb a b
  | _, _ => false
  end.

Notation "x === v" := (js_strict_eq x v) (at level 70, no associativity) : js_scope.
Open Scope js_scope.

(** [x < z] and [x > z] against an integer literal: false on [NaN]. *)
Definition js_lt (x : JsNum) (z : Z) : bool :=
  match x with Num a => Z.ltb a z | NaN => false end.

Definition js_gt (x : JsNum) (z : Z) : bool :=
  match x with Num a => Z.ltb z a | NaN => false end.

(** [x - 1]. *)
Definition js_pred (x : JsNum) : JsNum :=
  match x with Num a => Num (a - 1) | NaN => NaN end.

(** [Number.prototype.toString] on the values the program prints. *)
Definition js_toString (x : JsNum) : string :=
  match x with
  | Num z => NilZero.string_of_int (Z.to_int z)
  | NaN => "NaN"
  end.

(** ** One-character string operations *)

Definition is_digit (c : ascii) : bool :=
  (48 <=? nat_of_ascii c)%nat && (nat_of_ascii c <=? 57)%nat.

Definition digit_value (c : ascii) : Z := Z.of_nat (nat_of_ascii c) - 48.

(** ECMAScript white space and line terminators that are ASCII: TAB, LF,
    VT, FF, CR and SPACE.  [ToNumber] trims them. *)
Definition is_js_space (c : ascii) : bool :=
  ((9 <=? nat_of_ascii c)%nat && (nat_of_ascii c <=? 13)%nat)
  || (nat_of_ascii c =? 32)%nat.

(** [parseInt(s)] where [s] is a one-character string or [undefined]: a
    digit gives its value, anything else (white space included, which
    [parseInt] trims to the empty string) gives [NaN]. *)
Definition parseInt_char (c : option ascii) : JsNum :=
  match c with
  | Some c => if is_digit c then Num (digit_value c) else NaN
  | None => NaN
  end.

(** [isNaN(s)] where [s] is a one-character string or [undefined]:
    [ToNumber] of a digit is that digit, of a white-space character is 0
    (the trimmed string is empty), of [undefined] and of any other single
    character is [NaN]. *)
Definition isNaN_char (c : option ascii) : bool :=
  match c with
  | Some c => negb (is_digit c || is_js_space c)
  | None => true
  end.

(** [String.prototype.toLowerCase] on an ASCII character. *)
Definition to_lower (c : ascii) : ascii :=
  let n := nat_of_ascii c in
  if (65 <=? n)%nat && (n <=? 90)%nat then ascii_of_nat (n + 32) else c.

(** [s.indexOf(c)] for a one-character [c]: the first position or [-1]. *)
Fixpoint index_of (s : string) (c : ascii) : Z :=
  match s with
  | EmptyString => -1
  | String d s' =>
      if Ascii.eqb d c then 0
      else let k := index_of s' c in if Z.eqb k (-1) then -1 else k + 1
  end.

(** [!x] on a request field: absent or empty. *)
Definition js_falsy (x : option string) : bool :=
  match x with None => true | Some s => String.eqb s "" end.

(** ** Response objects *)

(** [{error: e}], [{solution: s}], [{valid: true}] and
    [{valid: false, conflict: l}]. *)
Inductive Response : Type :=
| RError (error : string)
| RSolution (solution : string)
| RValid
| RInvalid (conflict : list string).

#[export] Instance Response_eq_dec : EqDecision Response.
Proof. solve_decision. Defined.

(** ** Inputs of the repository's tests *)

(** The puzzle of [src/tests/1_unit-tests.js] and
    [src/tests/2_functional-tests.js], and the solution the tests expect. *)
Definition test_puzzle : string :=
  "1.5..2.84..63.12.7.2..5.....9..1....8.2.3674.3.7.2..9.47...8..1..16....926914.37.".

Definition test_solution : string :=
  "135762984946381257728459613694517832812936745357824196473298561581673429269145378".


(** ** Shared lemmas *)

(** Proves a decidable proposition on closed data by evaluation. *)
Ltac decide_by_eval := apply (bool_decide_unpack _); vm_compute; exact I.


Create HintDb sudoku discriminated.
Create Rewrite HintDb sudoku_rw.

(** Case analysis on the 256 values of an ASCII character, each case
    closed by computation: for lemmas that hold character by character. *)
Ltac ascii_cases c :=
  destruct c as [[] [] [] [] [] [] [] []]; vm_compute in *; try reflexivity; try discriminate.

(** Case analysis on an integer between 0 and 9, for lemmas that hold digit
    by digit. *)
Ltac digit_cases z :=
  match goal with
  | H : (0 <= z <= 9)%Z |- _ =>
      assert (z = 0 \/ z = 1 \/ z = 2 \/ z = 3 \/ z = 4 \/ z = 5 \/ z = 6
              \/ z = 7 \/ z = 8 \/ z = 9)%Z as Hdigit by lia; clear H;
      repeat destruct Hdigit as [-> | Hdigit]; [..| subst z]; try reflexivity
  end.

Lemma string_get_list (s : string) (n : nat) :
  String.get n s = list_ascii_of_string s !! n.
Proof. revert n; induction s as [|c s IH]; intros [|n]; simpl; auto. Qed.

Lemma list_ascii_of_string_append (s1 s2 : string) :
  list_ascii_of_string (s1 ++ s2)%string
  = list_ascii_of_string s1 ++ list_ascii_of_string s2.
Proof. induction s1 as [|c s IH]; simpl; f_equal; auto. Qed.

Lemma string_length_list (s : string) :
  String.length s = length (list_ascii_of_string s).
Proof. induction s; simpl; auto. Qed.

#[export] Hint Rewrite list_ascii_of_string_append : sudoku_rw.

Lemma forallb_seq_iff (f : nat -> bool) (a n : nat) :
  forallb f (seq a n) = true <-> (forall i, a <= i < a + n -> f i = true).
Proof.
  rewrite forallb_forall. setoid_rewrite in_seq. split; intros H i Hi; apply H; lia.
Qed.

Lemma fold_left_append_list {A} (f : A -> string) (l : list A) (acc : string) :
  list_ascii_of_string (fold_left (fun s x => (s ++ f x)%string) l acc)
  = list_ascii_of_string acc ++ (l ≫= fun x => list_ascii_of_string (f x)).
Proof.
  revert acc; induction l as [|x l IH]; intros acc; simpl.
  - now rewrite app_nil_r.
  - rewrite IH, list_ascii_of_string_append. now rewrite app_assoc.
Qed.

Lemma js_strict_eq_true x v : (x === v) = true <-> exists z, x = Some (Num z) /\ v = Num z.
Proof.
  destruct x as [[a|]|], v as [b|]; simpl; split; intros H;
    try discriminate; try (destruct H as (? & H & ?); discriminate).
  - apply Z.eqb_eq in H; subst; eauto.
  - destruct H as (z & Hx & Hv). injection Hx; injection Hv; intros; subst. apply Z.eqb_refl.
Qed.

Lemma js_strict_eq_num x (z : Z) : (x === Num z) = true <-> x = Some (Num z).
Proof.
  rewrite js_strict_eq_true. split; [intros (? & -> & Hv); congruence | intros ->; eauto].
Qed.

Lemma js_strict_eq_false x (z : Z) : (x === Num z) = false <-> x <> Some (Num z).
Proof. rewrite <- js_strict_eq_num. destruct (x === Num z); naive_solver. Qed.

Lemma js_strict_eq_NaN x : (x === NaN) = false.
Proof. by destruct x as [[]|]. Qed.

#[export] Hint Rewrite js_strict_eq_num : sudoku_rw.

(** Lookup in a list built block by block, every block of length [m]. *)
Lemma lookup_bind_blocks {A B} (f : A -> list B) (l : list A) (m i j : nat) (x : A) :
  (forall y, y ∈ l -> length (f y) = m) -> l !! i = Some x -> j < m ->
  (l ≫= f) !! (m * i + j) = f x !! j.
Proof.
  revert i; induction l as [|y l IH]; intros i Hlen Hi Hj; [discriminate|].
  rewrite bind_cons. destruct i as [|i]; simpl in Hi.
  - injection Hi as ->. rewrite lookup_app_l; [f_equal; lia|].
    rewrite Hlen; [lia|left].
  - assert (length (f y) = m) as Hy by (apply Hlen; left).
    rewrite lookup_app_r by lia.
    replace (m * S i + j - length (f y)) with (m * i + j) by lia.
    apply IH; auto. intros z Hz. apply Hlen. by right.
Qed.

Lemma length_bind_blocks {A B} (f : A -> list B) (l : list A) (m : nat) :
  (forall y, y ∈ l -> length (f y) = m) -> length (l ≫= f) = m * length l.
Proof.
  induction l as [|y l IH]; intros Hlen; [simpl; lia|].
  rewrite bind_cons, length_app, Hlen, IH; [simpl; lia | |left].
  intros z Hz. apply Hlen. by right.
Qed.

(** Length of a list built block by block, a block of length [1 + n] where
    [P] holds and of length [1] elsewhere. *)
Lemma length_bind_count {A B} (f : A -> list B) (P : A -> Prop) `{!forall x, Decision (P x)}
    (l : list A) (n : nat) :
  (forall y, y ∈ l -> length (f y) = if decide (P y) then 1 + n else 1) ->
  length (l ≫= f) = length l + n * length (filter P l).
Proof.
  induction l as [|y l IH]; intros Hlen; [simpl; lia|].
  rewrite bind_cons, length_app, filter_cons, Hlen by left.
  rewrite IH by (intros z Hz; apply Hlen; by right).
  case_decide; simpl; lia.
Qed.

Lemma lookup_bind_singletons {A B} (f : A -> list B) (l : list A) (i : nat) (x : A) :
  (forall y, y ∈ l -> length (f y) = 1) -> l !! i = Some x -> (l ≫= f) !! i = f x !! 0.
Proof.
  intros Hlen Hi. rewrite <- (lookup_bind_blocks f l 1 i 0 x); auto; f_equal; lia.
Qed.

Lemma bool_negb_decide (b : bool) (P : Prop) `{Decision P} : (b = true <-> ~ P) -> b = negb (bool_decide P).
Proof. intros Hb. destruct b, (bool_decide_reflect P); naive_solver. Qed.

Lemma forallb_Forall {A} (f : A -> bool) (l : list A) :
  forallb f l = true <-> Forall (fun x => f x = true) l.
Proof. rewrite forallb_forall, List.Forall_forall. reflexivity. Qed.

(** Division by 3, the arithmetic of regions. *)
Lemma div3_mod3 (n : nat) : n = n / 3 * 3 + n mod 3 /\ n mod 3 < 3.
Proof.
  split; [|apply Nat.mod_upper_bound; lia].
  pose proof (Nat.div_mod_eq n 3). lia.
Qed.

Lemma div3_block (r i : nat) : i < 3 -> (r / 3 * 3 + i) / 3 = r / 3.
Proof.
  intros Hi. rewrite Nat.add_comm, Nat.div_add by lia. rewrite Nat.div_small by lia. lia.
Qed.

(** ** The one-character builtins *)

Lemma isNaN_char_false (b : ascii) :
  isNaN_char (Some b) = false <-> is_digit b = true \/ is_js_space b = true.
Proof. unfold isNaN_char. rewrite negb_false_iff, orb_true_iff. done. Qed.

Lemma parseInt_char_digit (b : ascii) :
  is_digit b = true -> parseInt_char (Some b) = Num (digit_value b) /\ (0 <= digit_value b <= 9)%Z.
Proof.
  intros H. simpl. rewrite H. split; [done|].
  unfold is_digit in H. apply andb_true_iff in H as [H1 H2]. apply Nat.leb_le in H1, H2.
  unfold digit_value. lia.
Qed.

Lemma parseInt_char_not_digit (b : ascii) : is_digit b = false -> parseInt_char (Some b) = NaN.
Proof. intros H. simpl. by rewrite H. Qed.

Lemma space_not_digit (b : ascii) : is_js_space b = true -> is_digit b = false.
Proof.
  unfold is_js_space, is_digit. intros H.
  apply orb_true_iff in H as [H|H]; [apply andb_true_iff in H as [H1 H2]; apply Nat.leb_le in H1, H2
  | apply Nat.eqb_eq in H]; apply andb_false_iff; left; apply Nat.leb_gt; lia.
Qed.

(** The digit characters, by value. *)
Lemma digit_char_iff (b : ascii) (d : nat) :
  d <= 9 -> b = ascii_of_nat (48 + d) <-> is_digit b = true /\ digit_value b = Z.of_nat d.
Proof.
  intros Hd. unfold is_digit, digit_value. split.
  - intros ->. rewrite nat_ascii_embedding by lia.
    split; [apply andb_true_iff; split; apply Nat.leb_le; lia | lia].
  - intros [H Hv]. apply andb_true_iff in H as [H1 H2]. apply Nat.leb_le in H1, H2.
    rewrite <- (ascii_nat_embedding b). f_equal. lia.
Qed.

(** [indexOf] in the row letters: [-1], or the index of one of them. *)
Lemma index_of_letters (x : ascii) :
  index_of "abcdefghi" x = (-1)%Z
  \/ exists r, r < 9 /\ x = ascii_of_nat (97 + r) /\ index_of "abcdefghi" x = Z.of_nat r.
Proof.
  unfold index_of.
  repeat match goal with
  | |- context [Ascii.eqb ?l x] =>
      destruct (Ascii.eqb_spec l x) as [<-|?];
        [right; exists (nat_of_ascii l - 97); split; [vm_compute; lia | split; vm_compute; reflexivity]|]
  end.
  by left.
Qed.

Lemma index_of_letter (r : nat) : r < 9 -> index_of "abcdefghi" (ascii_of_nat (97 + r)) = Z.of_nat r.
Proof.
  intros Hr. do 9 (destruct r as [|r]; [reflexivity|]). lia.
Qed.
