(* ===== verification/Codec.v ===== *)
(** * Codec: the puzzle string and the 9x9 array

    Models [buildPuzzle] and [buildPuzzleString] of
    [src/controllers/sudoku-solver.js] (lines 1-31), the shape invariant of
    the arrays the program builds ([grid_wf]), and proves both round trips:
    decoding an encoded well-formed array gives it back, and encoding a
    decoded valid puzzle string gives the string back with every ['0']
    turned into ['.']. *)

From Stdlib Require Import ZArith String Ascii.
From stdpp Require Import base list strings.
From S2P Require Import Prelude.

(** The array of arrays [puzzle]: [puzzle[i][j]] is [nth2 puzzle i j]. *)
Abbreviation Grid := (list (list JsNum)).

Definition nth2 (puzzle : Grid) (i j : nat) : option JsNum :=
  puzzle !! i ≫= fun row => row !! j.

(** [puzzleString[pointer] === "." ? 0 : parseInt(puzzleString[pointer])]. *)
Definition cell_of_char (c : option ascii) : JsNum :=
  if decide (c = Some "."%char) then Num 0 else parseInt_char c.

(** [buildPuzzle]: two nested loops of 9; [pointer] is [9 * i + j] when
    cell [(i, j)] is read. *)
Definition buildPuzzle (puzzleString : string) : Grid :=
  (fun i => (fun j => cell_of_char (String.get (9 * i + j) puzzleString)) <$> seq 0 9)
    <$> seq 0 9.

(** [puzzle[i][j] === 0 ? "." : puzzle[i][j].toString()].  An [undefined]
    element would make [toString] throw; every array the program encodes
    is 9x9, so that branch is never taken (it yields [""] here). *)
Definition cell_text (x : option JsNum) : string :=
  if x === Num 0 then "."
  else match x with Some n => js_toString n | None => "" end.

(** [buildPuzzleString]: [puzzleString += ...] in two nested loops. *)
Definition buildPuzzleString (puzzle : Grid) : string :=
  fold_left
    (fun s i => fold_left (fun s j => (s ++ cell_text (nth2 puzzle i j))%string) (seq 0 9) s)
    (seq 0 9) ""%string.

(** ** The shape of the arrays *)

(** A cell the program stores after decoding a valid puzzle or placing a
    candidate: an integer between 0 and 9. *)
Definition digit_cell (x : JsNum) : bool :=
  match x with Num z => (0 <=? z)%Z && (z <=? 9)%Z | NaN => false end.

Definition grid_wf (g : Grid) : Prop :=
  length g = 9 /\ Forall (fun row => length row = 9 /\ Forall (fun x => digit_cell x = true) row) g.

#[export] Instance grid_wf_dec (g : Grid) : Decision (grid_wf g).
Proof. unfold grid_wf. apply _. Defined.

(** The character a digit cell is written as. *)
Definition digit_char (z : Z) : ascii :=
  if Z.eqb z 0 then "."%char else ascii_of_nat (48 + Z.to_nat z).

(** The character ['0'] reads as an empty cell and is written back as ['.']. *)
Definition zero_to_dot (c : ascii) : ascii :=
  if Ascii.eqb c "0"%char then "."%char else c.

(** The characters [validate] lets through, other than the backslash. *)
Definition puzzle_char (c : ascii) : bool := is_digit c || Ascii.eqb c "."%char.


(** The text forms [validate] accepts, less the backslash: 81 characters,
    each a digit or ['.']. *)
Definition puzzle_text (s : string) : Prop :=
  String.length s = 81 /\ Forall (fun c => puzzle_char c = true) (list_ascii_of_string s).

#[export] Instance puzzle_text_dec (s : string) : Decision (puzzle_text s).
Proof. unfold puzzle_text. apply _. Defined.

(** ** Shape and cells *)

Lemma nth2_buildPuzzle s i j :
  i < 9 -> j < 9 -> nth2 (buildPuzzle s) i j = Some (cell_of_char (String.get (9 * i + j) s)).
Proof.
  intros Hi Hj. unfold nth2, buildPuzzle.
  rewrite (list_lookup_fmap _ (seq 0 9) i), lookup_seq_lt by done.
  cbn [fmap option_fmap option_map mbind option_bind Nat.add].
  by rewrite (list_lookup_fmap _ (seq 0 9) j), lookup_seq_lt.
Qed.

Lemma buildPuzzle_rows s i row : buildPuzzle s !! i = Some row -> length row = 9.
Proof.
  unfold buildPuzzle. rewrite (list_lookup_fmap _ (seq 0 9) i).
  destruct (seq 0 9 !! i); intros [= <-]. reflexivity.
Qed.

Lemma length_buildPuzzle s : length (buildPuzzle s) = 9.
Proof. reflexivity. Qed.

(** Two arrays of nine rows of nine elements are equal when their elements
    are. *)
Lemma grid_ext (g1 g2 : Grid) :
  length g1 = 9 -> length g2 = 9 ->
  (forall i row, g1 !! i = Some row -> length row = 9) ->
  (forall i row, g2 !! i = Some row -> length row = 9) ->
  (forall i j, i < 9 -> j < 9 -> nth2 g1 i j = nth2 g2 i j) -> g1 = g2.
Proof.
  intros L1 L2 R1 R2 H. apply list_eq. intros i.
  destruct (decide (i < 9)) as [Hi|Hi].
  - destruct (lookup_lt_is_Some_2 g1 i) as [r1 E1]; [lia|].
    destruct (lookup_lt_is_Some_2 g2 i) as [r2 E2]; [lia|].
    rewrite E1, E2. f_equal. apply list_eq. intros j.
    destruct (decide (j < 9)) as [Hj|Hj].
    + specialize (H i j Hi Hj). unfold nth2 in H. by rewrite E1, E2 in H.
    + rewrite !lookup_ge_None_2; auto; [rewrite (R2 i) | rewrite (R1 i)]; auto; lia.
  - rewrite !lookup_ge_None_2; auto; lia.
Qed.

Lemma grid_wf_rows g i row : grid_wf g -> g !! i = Some row -> length row = 9.
Proof. intros [_ HF] Hi. exact (proj1 (Forall_lookup_1 _ _ _ _ HF Hi)). Qed.

Lemma grid_wf_cell g i j :
  grid_wf g -> i < 9 -> j < 9 -> exists z, nth2 g i j = Some (Num z) /\ (0 <= z <= 9)%Z.
Proof.
  intros [Hl HF] Hi Hj. unfold nth2.
  destruct (lookup_lt_is_Some_2 g i) as [row Er]; [lia|]. rewrite Er. simpl.
  destruct (Forall_lookup_1 _ _ _ _ HF Er) as [Hrow HR].
  destruct (lookup_lt_is_Some_2 row j) as [x Ex]; [lia|]. rewrite Ex.
  pose proof (Forall_lookup_1 _ _ _ _ HR Ex) as Hx.
  destruct x as [z|]; [|discriminate]. apply andb_true_iff in Hx as [H1 H2].
  exists z. split; [done|lia].
Qed.

Lemma cell_text_digit z :
  (0 <= z <= 9)%Z -> cell_text (Some (Num z)) = String (digit_char z) EmptyString.
Proof. intros H. digit_cases z. Qed.

Lemma cell_of_char_digit_char z : (0 <= z <= 9)%Z -> cell_of_char (Some (digit_char z)) = Num z.
Proof. intros H. digit_cases z. Qed.

Lemma cell_text_of_char c :
  puzzle_char c = true -> cell_text (Some (cell_of_char (Some c))) = String (zero_to_dot c) EmptyString.
Proof. intros H. ascii_cases c. Qed.

Lemma digit_cell_of_char c : puzzle_char c = true -> digit_cell (cell_of_char (Some c)) = true.
Proof. intros H. ascii_cases c. Qed.

(** ** The encoded string, character by character *)

Lemma buildPuzzleString_chars g :
  list_ascii_of_string (buildPuzzleString g)
  = seq 0 9 ≫= fun i => seq 0 9 ≫= fun j => list_ascii_of_string (cell_text (nth2 g i j)).
Proof.
  unfold buildPuzzleString.
  assert (forall l acc,
    list_ascii_of_string
      (fold_left (fun s i => fold_left (fun s j => (s ++ cell_text (nth2 g i j))%string) (seq 0 9) s) l acc)
    = list_ascii_of_string acc
      ++ (l ≫= fun i => seq 0 9 ≫= fun j => list_ascii_of_string (cell_text (nth2 g i j)))) as H.
  { induction l as [|i l IH]; intros acc; cbn [fold_left].
    - by rewrite app_nil_r.
    - by rewrite IH, fold_left_append_list, bind_cons, app_assoc. }
  apply H.
Qed.

Lemma cell_text_length g i j :
  grid_wf g -> i < 9 -> j < 9 -> length (list_ascii_of_string (cell_text (nth2 g i j))) = 1.
Proof.
  intros Hwf Hi Hj. destruct (grid_wf_cell g i j) as (z & -> & Hz); auto.
  by rewrite cell_text_digit.
Qed.

Lemma row_text_length g i :
  grid_wf g -> i < 9 ->
  length (seq 0 9 ≫= fun j => list_ascii_of_string (cell_text (nth2 g i j))) = 9.
Proof.
  intros Hwf Hi. rewrite (length_bind_blocks _ _ 1); [by rewrite length_seq|].
  intros j Hj%elem_of_seq. apply cell_text_length; auto; lia.
Qed.

(** Cell [(i, j)] of a well-formed array is written at position [9 * i + j]. *)
Lemma buildPuzzleString_get g i j x :
  grid_wf g -> i < 9 -> j < 9 -> nth2 g i j = Some x ->
  String.get (9 * i + j) (buildPuzzleString g) = list_ascii_of_string (cell_text (Some x)) !! 0.
Proof.
  intros Hwf Hi Hj Hx.
  rewrite string_get_list, buildPuzzleString_chars.
  rewrite (lookup_bind_blocks _ _ 9 i j i); [| |by rewrite lookup_seq_lt|done].
  - rewrite (lookup_bind_singletons _ _ j j); [by rewrite Hx| |by rewrite lookup_seq_lt].
    intros y Hy%elem_of_seq. apply cell_text_length; auto; lia.
  - intros y Hy%elem_of_seq. apply row_text_length; auto; lia.
Qed.

Lemma length_buildPuzzleString g : grid_wf g -> String.length (buildPuzzleString g) = 81.
Proof.
  intros Hwf. rewrite string_length_list, buildPuzzleString_chars.
  rewrite (length_bind_blocks _ _ 9); [by rewrite length_seq|].
  intros y Hy%elem_of_seq. apply row_text_length; auto; lia.
Qed.

(** The two loops of 9 visit positions [0] to [80] in order. *)
Lemma bind_rows {A} (G : nat -> list A) :
  (seq 0 9 ≫= fun i => seq 0 9 ≫= fun j => G (9 * i + j)) = seq 0 81 ≫= G.
Proof. cbn. rewrite !app_nil_r, <- !app_assoc. reflexivity. Qed.

(** Decoding then encoding a string writes, in order, the text of the cell
    each of its first 81 characters decodes to. *)
Lemma buildPuzzleString_buildPuzzle_chars s :
  list_ascii_of_string (buildPuzzleString (buildPuzzle s))
  = seq 0 81 ≫= fun k => list_ascii_of_string (cell_text (Some (cell_of_char (String.get k s)))).
Proof.
  rewrite buildPuzzleString_chars, <- bind_rows.
  apply Forall_bind_ext, Forall_forall. intros i Hi%elem_of_seq.
  apply Forall_bind_ext, Forall_forall. intros j Hj%elem_of_seq.
  rewrite nth2_buildPuzzle by lia. reflexivity.
Qed.

Lemma buildPuzzle_wf s : puzzle_text s -> grid_wf (buildPuzzle s).
Proof.
  intros [Hlen Hchars]. split; [done|]. apply Forall_lookup. intros i row Hrow.
  split; [eauto using buildPuzzle_rows|]. apply Forall_lookup. intros j x Hx.
  assert (i < 9) by (apply lookup_lt_Some in Hrow; done).
  assert (j < 9) by (apply lookup_lt_Some in Hx; rewrite (buildPuzzle_rows s i row) in Hx; done).
  assert (E : nth2 (buildPuzzle s) i j = Some x) by (unfold nth2; rewrite Hrow; exact Hx).
  rewrite nth2_buildPuzzle in E by done. apply (inj Some) in E. subst x.
  rewrite string_get_list.
  destruct (lookup_lt_is_Some_2 (list_ascii_of_string s) (9 * i + j)) as [c Hc];
    [rewrite <- string_length_list; lia|].
  rewrite Hc. apply digit_cell_of_char. exact (Forall_lookup_1 _ _ _ _ Hchars Hc).
Qed.

Lemma cell_of_char_pos c :
  puzzle_char c = true -> c <> "0"%char -> c <> "."%char -> exists z, cell_of_char (Some c) = Num z /\ (1 <= z <= 9)%Z.
Proof.
  intros H H0 Hd. unfold cell_of_char. rewrite decide_False by congruence.
  unfold puzzle_char in H. apply orb_true_iff in H as [Hdig|Hdot];
    [|apply Ascii.eqb_eq in Hdot; congruence].
  simpl. rewrite Hdig. eexists; split; [reflexivity|].
  unfold is_digit in Hdig. apply andb_true_iff in Hdig as [H1 H2]. apply Nat.leb_le in H1, H2.
  assert (nat_of_ascii c <> 48).
  { intros E. apply H0. rewrite <- (ascii_nat_embedding c), E. reflexivity. }
  unfold digit_value. lia.
Qed.

(** ** Round trips *)

Lemma buildPuzzle_of_buildPuzzleString (g : Grid) : grid_wf g -> buildPuzzle (buildPuzzleString g) = g.
Proof.
  intros Hwf. apply grid_ext; [done | apply Hwf | apply buildPuzzle_rows | eauto using grid_wf_rows |].
  intros i j Hi Hj. rewrite nth2_buildPuzzle by done.
  destruct (grid_wf_cell g i j) as (z & Hz & Hb); auto. rewrite Hz.
  erewrite buildPuzzleString_get by eauto. rewrite cell_text_digit by done.
  simpl. by rewrite cell_of_char_digit_char.
Qed.

(** C27: decoding the string [buildPuzzleString] writes for a 9x9 array of
    digit cells gives back the same array. *)
Theorem decode_encode (g : Grid) : grid_wf g -> buildPuzzle (buildPuzzleString g) = g.
Proof. intros; eapply buildPuzzle_of_buildPuzzleString; eassumption. Qed.

Lemma decode_encode_witness :
  grid_wf (buildPuzzle test_puzzle)
  /\ buildPuzzle (buildPuzzleString (buildPuzzle test_puzzle)) = buildPuzzle test_puzzle.
Proof.
  assert (H : grid_wf (buildPuzzle test_puzzle)) by decide_by_eval.
  split; [exact H | exact (decode_encode _ H)].
Defined.

Lemma buildPuzzleString_of_buildPuzzle (s : string) :
  puzzle_text s ->
  buildPuzzleString (buildPuzzle s) = string_of_list_ascii (zero_to_dot <$> list_ascii_of_string s).
Proof.
  intros Hs. pose proof (buildPuzzle_wf s Hs) as Hwf. destruct Hs as [Hlen Hchars].
  rewrite <- (string_of_list_ascii_of_string (buildPuzzleString _)). f_equal.
  apply list_eq. intros k. rewrite list_lookup_fmap.
  destruct (decide (k < 81)) as [Hk|Hk].
  - destruct (lookup_lt_is_Some_2 (list_ascii_of_string s) k) as [c Hc];
      [rewrite <- string_length_list; lia|].
    rewrite Hc. rewrite <- string_get_list.
    pose proof (Nat.div_mod_eq k 9) as Hkdm. pose proof (Nat.mod_upper_bound k 9) as Hm.
    assert (k / 9 < 9 /\ k mod 9 < 9) as [Hi Hj] by lia.
    rewrite Hkdm in Hc |- *.
    rewrite (buildPuzzleString_get _ _ _ (cell_of_char (Some c))); auto.
    + rewrite cell_text_of_char; [done|]. exact (Forall_lookup_1 _ _ _ _ Hchars Hc).
    + by rewrite nth2_buildPuzzle, string_get_list, Hc.
  - rewrite !lookup_ge_None_2; [done | rewrite <- string_length_list; lia |].
    rewrite <- string_length_list, length_buildPuzzleString by done. lia.
Qed.

(** C28: encoding the array decoded from an 81-character string of digits
    and dots gives the string back, except that every ['0'] comes back as
    ['.']: the code reads ['0'] as an empty cell. *)
Theorem encode_decode (s : string) :
  puzzle_text s ->
  buildPuzzleString (buildPuzzle s) = string_of_list_ascii (zero_to_dot <$> list_ascii_of_string s).
Proof. intros; eapply buildPuzzleString_of_buildPuzzle; eassumption. Qed.

Lemma encode_decode_nozero (s : string) :
  puzzle_text s -> Forall (fun c => c <> "0"%char) (list_ascii_of_string s) ->
  buildPuzzleString (buildPuzzle s) = s.
Proof.
  intros Hs Hz. rewrite buildPuzzleString_of_buildPuzzle by done.
  rewrite <- (string_of_list_ascii_of_string s) at 2. f_equal.
  rewrite <- (list_fmap_id (list_ascii_of_string s)) at 2. apply list_fmap_ext.
  intros i c Hc. apply (Forall_lookup_1 _ _ _ _ Hz) in Hc. unfold zero_to_dot.
  destruct (Ascii.eqb_spec c "0"%char); [congruence|done].
Qed.

Lemma encode_decode_witness :
  puzzle_text test_puzzle
  /\ buildPuzzleString (buildPuzzle test_puzzle)
     = string_of_list_ascii (zero_to_dot <$> list_ascii_of_string test_puzzle).
Proof.
  assert (H : puzzle_text test_puzzle) by decide_by_eval.
  split; [exact H | exact (encode_decode _ H)].
Defined.

