(* ===== verification/Validator.v ===== *)
(** * Validator: [SudokuSolver.validate]

    Models [validate] of [src/controllers/sudoku-solver.js] (lines 34-40):
    the missing-field test, the length test and the regular expression
    [/^[0-9\\.]{81}$/].  Inside a JavaScript regular-expression literal
    [\\] is one escaped backslash, so the character class admits the ten
    digits, the backslash and the dot: the theorems state exactly which
    strings pass, the error each failing string gets, and that a backslash
    passes. *)

From Stdlib Require Import ZArith String Ascii.
From stdpp Require Import base list strings.
From S2P Require Import Prelude Codec.

(** The character class [[0-9\\.]]. *)
Definition puzzle_re_char (c : ascii) : bool :=
  is_digit c || Ascii.eqb c "\"%char || Ascii.eqb c "."%char.

(** [/^[0-9\\.]{81}$/.test(s)]. *)
Definition puzzle_re_test (s : string) : bool :=
  (String.length s =? 81)%nat && forallb puzzle_re_char (list_ascii_of_string s).

Definition validate (puzzleString : option string) : option Response :=
  if js_falsy puzzleString then Some (RError "Required field missing") else
  let s := default ""%string puzzleString in
  if negb (String.length s =? 81)%nat then Some (RError "Expected puzzle to be 81 characters long")
  else if negb (puzzle_re_test s) then Some (RError "Invalid characters in puzzle")
  else None.

(** ** Theorems *)

Lemma validate_None_iff (s : string) :
  validate (Some s) = None
  <-> String.length s = 81 /\ Forall (fun c => puzzle_re_char c = true) (list_ascii_of_string s).
Proof.
  unfold validate, puzzle_re_test, js_falsy. simpl. rewrite <- forallb_Forall.
  destruct (String.eqb_spec s ""); [subst; simpl; split; [discriminate|lia]|].
  destruct (Nat.eqb_spec (String.length s) 81); simpl; [|split; [discriminate|lia]].
  destruct (forallb _ _); simpl; split; intuition congruence.
Qed.


(** C29: an absent or empty puzzle is reported missing; otherwise a string
    whose length is not 81 gets the length error whatever its characters;
    otherwise a string with a character outside [[0-9\\.]] gets the
    character error. *)
Theorem validate_errors (p : option string) :
  (js_falsy p = true -> validate p = Some (RError "Required field missing"))
  /\ (forall s, p = Some s -> s <> ""%string -> String.length s <> 81 ->
      validate p = Some (RError "Expected puzzle to be 81 characters long"))
  /\ (forall s, p = Some s -> String.length s = 81 ->
      Exists (fun c => puzzle_re_char c = false) (list_ascii_of_string s) ->
      validate p = Some (RError "Invalid characters in puzzle")).
Proof.
  unfold validate. split; [|split]; intros.
  - by rewrite H.
  - subst. simpl. destruct (String.eqb_spec s ""); [done|]. simpl.
    by destruct (Nat.eqb_spec (String.length s) 81).
  - subst. simpl. destruct (String.eqb_spec s ""); [subst; done|]. simpl.
    rewrite H0. simpl. unfold puzzle_re_test. rewrite H0. simpl.
    destruct (forallb _ _) eqn:E; [|done].
    apply forallb_Forall in E. rewrite Forall_forall in E. apply Exists_exists in H1 as (c & Hc & Hf).
    apply E in Hc. congruence.
Qed.

(** A digit or a dot is in the class [[0-9\\.]]. *)
Lemma puzzle_char_re c : puzzle_char c = true -> puzzle_re_char c = true.
Proof.
  unfold puzzle_char, puzzle_re_char.
  destruct (is_digit c), (Ascii.eqb c "\"%char), (Ascii.eqb c "."%char); done.
Qed.

Lemma validate_of_puzzle_text (s : string) : puzzle_text s -> validate (Some s) = None.
Proof.
  intros [Hlen Hchars]. apply validate_None_iff. split; [done|].
  eapply Forall_impl; [exact Hchars|]. exact puzzle_char_re.
Qed.

(** C30: a puzzle of 81 digits and dots passes [validate]. *)
Theorem validate_puzzle_text (s : string) : puzzle_text s -> validate (Some s) = None.
Proof. intros; eapply validate_of_puzzle_text; eassumption. Qed.

Lemma validate_puzzle_text_witness : puzzle_text test_puzzle /\ validate (Some test_puzzle) = None.
Proof.
  assert (H : puzzle_text test_puzzle) by decide_by_eval.
  split; [exact H | exact (validate_puzzle_text _ H)].
Defined.

Lemma validate_errors_witness :
  js_falsy None = true /\ validate None = Some (RError "Required field missing").
Proof. split; [reflexivity | exact (proj1 (validate_errors None) eq_refl)]. Defined.


(** A character of the class other than the backslash is a digit or a dot. *)
Lemma puzzle_re_char_cases c :
  puzzle_re_char c = true -> c = "\"%char \/ puzzle_char c = true.
Proof.
  unfold puzzle_re_char, puzzle_char. destruct (Ascii.eqb_spec c "\"%char) as [->|]; [by left|].
  right. destruct (is_digit c), (Ascii.eqb c "."%char); done.
Qed.

(** C13: bounds of the decoded array.  A string that passes [validate]
    decodes to an array whose every cell is a number from 0 to 9, except
    where the string holds a backslash, which decodes to NaN. *)
Theorem validate_decode_bounds s r c :
  validate (Some s) = None -> r < 9 -> c < 9 ->
  (exists z, nth2 (buildPuzzle s) r c = Some (Num z) /\ (0 <= z <= 9)%Z)
  \/ (String.get (9 * r + c) s = Some "\"%char /\ nth2 (buildPuzzle s) r c = Some NaN).
Proof.
  intros [Hlen Hchars]%validate_None_iff Hr Hc. rewrite nth2_buildPuzzle by done.
  rewrite string_get_list.
  destruct (lookup_lt_is_Some_2 (list_ascii_of_string s) (9 * r + c)) as [ch Hch];
    [rewrite <- string_length_list; lia|].
  rewrite Hch. destruct (puzzle_re_char_cases ch) as [->|Hd]; [exact (Forall_lookup_1 _ _ _ _ Hchars Hch)| |].
  { right. split; reflexivity. }
  left. pose proof (digit_cell_of_char ch Hd) as Hdc.
  destruct (cell_of_char (Some ch)) as [z|]; [|done]. exists z. split; [done|].
  simpl in Hdc. apply andb_prop in Hdc as [H1 H2]. apply Z.leb_le in H1, H2. lia.
Qed.

Lemma validate_decode_bounds_witness :
  validate (Some test_puzzle) = None /\ 0 < 9 /\ 1 < 9 /\
  ((exists z, nth2 (buildPuzzle test_puzzle) 0 1 = Some (Num z) /\ (0 <= z <= 9)%Z)
   \/ (String.get (9 * 0 + 1) test_puzzle = Some "\"%char /\ nth2 (buildPuzzle test_puzzle) 0 1 = Some NaN)).
Proof.
  assert (H : validate (Some test_puzzle) = None) by reflexivity.
  split; [exact H|split; [lia|split; [lia|]]]. exact (validate_decode_bounds test_puzzle 0 1 H ltac:(lia) ltac:(lia)).
Defined.


(** C15: the class [[0-9\\.]] admits the backslash.  Writing a backslash
    over any one of the 81 characters of a puzzle of digits and dots gives
    a string that holds the backslash there and that [validate] accepts. *)
Theorem validate_backslash_cell (s : string) (k : nat) :
  puzzle_text s -> k < 81 ->
  let s' := string_of_list_ascii (<[k := "\"%char]> (list_ascii_of_string s)) in
  String.get k s' = Some "\"%char /\ validate (Some s') = None.
Proof.
  intros [Hlen Hchars] Hk s'. subst s'.
  rewrite string_get_list, validate_None_iff, string_length_list,
    !list_ascii_of_string_of_list_ascii, length_insert, <- string_length_list.
  split; [apply list_lookup_insert_eq; rewrite <- string_length_list; lia|split; [done|]].
  apply Forall_insert; [|done]. eapply Forall_impl; [exact Hchars|]. exact puzzle_char_re.
Qed.

Lemma validate_backslash_cell_witness :
  puzzle_text test_puzzle /\ 1 < 81 /\
  let s' := string_of_list_ascii (<[1 := "\"%char]> (list_ascii_of_string test_puzzle)) in
  String.get 1 s' = Some "\"%char /\ validate (Some s') = None.
Proof.
  assert (H : puzzle_text test_puzzle) by decide_by_eval.
  split; [exact H|split; [lia|exact (validate_backslash_cell test_puzzle 1 H ltac:(lia))]].
Defined.

(** The text [check] re-encodes a decoded character into: one character
    for a digit or a dot, ["NaN"] for the backslash. *)
Lemma cell_text_re_char_length c :
  puzzle_re_char c = true ->
  length (list_ascii_of_string (cell_text (Some (cell_of_char (Some c)))))
  = if decide (Some c = Some "\"%char) then 3 else 1.
Proof.
  intros [->|Hd]%puzzle_re_char_cases; [reflexivity|].
  rewrite cell_text_of_char by done. rewrite decide_False; [done|].
  intros [= ->]. discriminate Hd.
Qed.

(** C14: what decoding then re-encoding does to an accepted string.  The
    string [check] rebuilds from the array of a string [validate] accepts
    is 81 characters long plus two for every backslash among the 81:
    each backslash decodes to NaN and is written back as ["NaN"], so every
    later cell is shifted in the rebuilt string. *)
Theorem check_string_length (s : string) :
  validate (Some s) = None ->
  String.length (buildPuzzleString (buildPuzzle s))
  = 81 + 2 * length (filter (fun k => String.get k s = Some "\"%char) (seq 0 81)).
Proof.
  intros [Hlen Hchars]%validate_None_iff.
  rewrite string_length_list, buildPuzzleString_buildPuzzle_chars.
  rewrite (length_bind_count _ (fun k => String.get k s = Some "\"%char) _ 2), length_seq; [done|].
  intros k Hk%elem_of_seq. rewrite string_get_list.
  destruct (lookup_lt_is_Some_2 (list_ascii_of_string s) k) as [ch Hch];
    [rewrite <- string_length_list; lia|].
  rewrite Hch. apply cell_text_re_char_length. exact (Forall_lookup_1 _ _ _ _ Hchars Hch).
Qed.

Lemma check_string_length_witness :
  validate (Some "\3576..1..6..1.3.4.35..6...3.2..1..8.1.4..4..69...5.2.73..2.1.9....6...7.1.....8.")%string = None
  /\ String.length (buildPuzzleString (buildPuzzle "\3576..1..6..1.3.4.35..6...3.2..1..8.1.4..4..69...5.2.73..2.1.9....6...7.1.....8."%string))
     = 81 + 2 * length (filter (fun k => String.get k "\3576..1..6..1.3.4.35..6...3.2..1..8.1.4..4..69...5.2.73..2.1.9....6...7.1.....8."%string = Some "\"%char) (seq 0 81)).
Proof.
  assert (H : validate (Some "\3576..1..6..1.3.4.35..6...3.2..1..8.1.4..4..69...5.2.73..2.1.9....6...7.1.....8."%string) = None)
    by reflexivity.
  split; [exact H|exact (check_string_length _ H)].
Defined.
