(* ===== verification/Rules.v ===== *)
(** * Rules: what a solution of a puzzle is

    The abstract specification the solver is refined against, stated on the
    9x9 arrays of [Codec]: two cells are peers when they are distinct and
    share a row, a column or a 3x3 region; an array is consistent when no
    filled cell (a value above 0) has a peer holding the same value; it is
    filled when every cell holds 1 to 9; and it is a solution of a puzzle
    when it is well formed, filled, consistent and keeps every filled cell
    of the puzzle.  Every predicate is decidable, so concrete arrays are
    checked by evaluation. *)

From Stdlib Require Import ZArith String.
From stdpp Require Import base list.
From S2P Require Import Prelude Codec.

(** Cells [(r, c)] and [(r', c')] lie in one row, one column or one region. *)
Definition same_unit (r c r' c' : nat) : bool :=
  (r =? r') || (c =? c') || ((r / 3 =? r' / 3) && (c / 3 =? c' / 3)).

Definition peer (r c r' c' : nat) : bool :=
  same_unit r c r' c' && negb ((r =? r') && (c =? c')).

(** A property of every cell of the 9x9 board. *)
Definition all_cells (P : nat -> nat -> Prop) : Prop :=
  forall r c, r < 9 -> c < 9 -> P r c.

(** A filled cell of [g] has no peer holding its value. *)
Definition cell_ok (g : Grid) (r c : nat) : Prop :=
  match nth2 g r c with
  | Some (Num z) =>
      (0 < z)%Z -> all_cells (fun r' c' => peer r c r' c' = true -> nth2 g r' c' <> Some (Num z))
  | _ => True
  end.

Definition consistent (g : Grid) : Prop := all_cells (cell_ok g).

(** A cell holding a value from 1 to 9. *)
Definition filled_cell (x : option JsNum) : Prop :=
  match x with Some (Num z) => (1 <= z <= 9)%Z | _ => False end.

Definition filled (g : Grid) : Prop := all_cells (fun r c => filled_cell (nth2 g r c)).

(** [g] holds at [(r, c)] the value of [p] when [p]'s cell is filled. *)
Definition keeps_cell (p g : Grid) (r c : nat) : Prop :=
  match nth2 p r c with
  | Some (Num z) => (0 < z)%Z -> nth2 g r c = Some (Num z)
  | _ => True
  end.

(** [g] keeps every filled cell of the puzzle [p]. *)
Definition extends (p g : Grid) : Prop := all_cells (keeps_cell p g).

Definition solution_of (p g : Grid) : Prop :=
  grid_wf g /\ filled g /\ consistent g /\ extends p g.

(** No cell sharing a unit with [(r, c)], the cell itself included,
    holds [v]: placing [v] at an empty [(r, c)] keeps the rules. *)
Definition unit_free (g : Grid) (r c : nat) (v : Z) : Prop :=
  all_cells (fun r' c' => same_unit r c r' c' = true -> nth2 g r' c' <> Some (Num v)).

(** ** Decidability *)

Lemma all_cells_Forall (P : nat -> nat -> Prop) :
  all_cells P <-> Forall (fun r => Forall (fun c => P r c) (seq 0 9)) (seq 0 9).
Proof.
  unfold all_cells. rewrite Forall_forall. setoid_rewrite Forall_forall.
  setoid_rewrite elem_of_seq. split.
  - intros H r Hr c Hc. apply H; lia.
  - intros H r c Hr Hc. apply H; lia.
Qed.

#[export] Instance all_cells_dec (P : nat -> nat -> Prop) `{!forall r c, Decision (P r c)} :
  Decision (all_cells P).
Proof.
  destruct (decide (Forall (fun r => Forall (fun c => P r c) (seq 0 9)) (seq 0 9))) as [HF|HF];
    [left; by apply all_cells_Forall | right; by rewrite all_cells_Forall].
Defined.

#[export] Instance cell_ok_dec g r c : Decision (cell_ok g r c).
Proof. unfold cell_ok. destruct (nth2 g r c) as [[z|]|]; apply _. Defined.

#[export] Instance consistent_dec g : Decision (consistent g).
Proof. unfold consistent. apply _. Defined.

#[export] Instance filled_cell_dec x : Decision (filled_cell x).
Proof. unfold filled_cell. destruct x as [[z|]|]; apply _. Defined.

#[export] Instance keeps_cell_dec p g r c : Decision (keeps_cell p g r c).
Proof. unfold keeps_cell. destruct (nth2 p r c) as [[z|]|]; apply _. Defined.

#[export] Instance filled_dec g : Decision (filled g).
Proof. unfold filled. apply _. Defined.

#[export] Instance extends_dec p g : Decision (extends p g).
Proof. unfold extends. apply _. Defined.

#[export] Instance solution_of_dec p g : Decision (solution_of p g).
Proof. unfold solution_of. apply _. Defined.

(** ** Lemmas *)

Lemma peer_sym r c r' c' : peer r c r' c' = peer r' c' r c.
Proof.
  unfold peer, same_unit.
  by rewrite (Nat.eqb_sym r), (Nat.eqb_sym c), (Nat.eqb_sym (r / 3)), (Nat.eqb_sym (c / 3)).
Qed.

Lemma peer_same_unit r c r' c' :
  peer r c r' c' = true <-> same_unit r c r' c' = true /\ (r, c) <> (r', c').
Proof.
  unfold peer. destruct (same_unit r c r' c'); simpl; [|naive_solver].
  destruct (Nat.eqb_spec r r'), (Nat.eqb_spec c c'); simpl; subst; split; intros H;
    try done; try (destruct H; congruence); split; congruence.
Qed.

Lemma extends_refl g : extends g g.
Proof. intros r c _ _. unfold keeps_cell. by destruct (nth2 g r c) as [[z|]|]. Qed.

(** [extends] is a preorder: a later array keeps what an earlier one kept. *)
Lemma extends_trans p g h : extends p g -> extends g h -> extends p h.
Proof.
  intros H1 H2 r c Hr Hc. specialize (H1 r c Hr Hc). specialize (H2 r c Hr Hc).
  unfold keeps_cell in *. destruct (nth2 p r c) as [[z|]|]; try done.
  intros Hz. rewrite H1 in H2 by done. by apply H2.
Qed.

#[export] Hint Resolve extends_refl : sudoku.
