(* ===== verification/Placement.v ===== *)
(** * Placement: the row, column and region scans and the solver's [check]

    Models [checkRowPlacement], [checkColPlacement], [checkRegionPlacement]
    and [check] of [src/controllers/sudoku-solver.js] (lines 42-74).  Each
    scan decodes its string argument afresh with [buildPuzzle] and loops
    over nine cells; a row or column index is a JavaScript number, so it
    may be NaN (the public [checkStr] can produce a NaN column), in which
    case [puzzle[i][NaN]] is [undefined] and [Math.floor(NaN / 3) * 3] is
    NaN, a loop bound under which the region loop runs zero times.

    The theorems give each scan's meaning on the decoded array, the meaning
    of [check] on a well-formed array (the value is already in the cell, or
    no cell of the row, the column or the region holds it), and relate the
    union of the three units to the peers of [Rules]. *)

From Stdlib Require Import ZArith String.
From stdpp Require Import base list.
From S2P Require Import Prelude Codec Rules.

(** [puzzle[r][c]] with number indices.  A negative or NaN index reads
    [undefined].  When [puzzle[r]] itself is [undefined] JavaScript would
    throw on the second subscript; every caller passes a row between 0 and
    8 ([checkStr] validates it, [solveLoc] keeps it in range), so that case
    is never reached and reads [undefined] here. *)
Definition cell_at (puzzle : Grid) (r c : JsNum) : option JsNum :=
  match r, c with
  | Num zr, Num zc =>
      if (0 <=? zr)%Z && (0 <=? zc)%Z then nth2 puzzle (Z.to_nat zr) (Z.to_nat zc) else None
  | _, _ => None
  end.

(** The indices of [for (let i = start; i < start + n; i++)]: none when
    [start] is NaN, since [NaN < NaN + n] is false. *)
Definition js_range (start : JsNum) (n : nat) : list JsNum :=
  match start with
  | Num z => (fun k => Num (z + Z.of_nat k)) <$> seq 0 n
  | NaN => []
  end.

(** [Math.floor(x / 3) * 3]. *)
Definition region_start (x : JsNum) : JsNum :=
  match x with Num z => Num (z / 3 * 3) | NaN => NaN end.

Definition checkRowPlacement (puzzleString : string) (row column value : JsNum) : bool :=
  let puzzle := buildPuzzle puzzleString in
  forallb (fun i => negb (cell_at puzzle row i === value)) (js_range (Num 0) 9).

Definition checkColPlacement (puzzleString : string) (row column value : JsNum) : bool :=
  let puzzle := buildPuzzle puzzleString in
  forallb (fun i => negb (cell_at puzzle i column === value)) (js_range (Num 0) 9).

Definition checkRegionPlacement (puzzleString : string) (row column value : JsNum) : bool :=
  let puzzle := buildPuzzle puzzleString in
  let regionRow := region_start row in
  let regionCol := region_start column in
  forallb (fun i => forallb (fun j => negb (cell_at puzzle i j === value)) (js_range regionCol 3))
    (js_range regionRow 3).

(** [check(puzzle, row, col, value)]: the solver's test, on its array. *)
Definition check (puzzle : Grid) (row col : nat) (value : Z) : bool :=
  let puzzleString := buildPuzzleString puzzle in
  let r := Num (Z.of_nat row) in
  let c := Num (Z.of_nat col) in
  (nth2 puzzle row col === Num value)
  || (checkRowPlacement puzzleString r c (Num value)
      && checkColPlacement puzzleString r c (Num value)
      && checkRegionPlacement puzzleString r c (Num value)).

(** ** What the scans look for, on an array *)

Definition row_has (g : Grid) (r : nat) (v : Z) : Prop :=
  exists i, i < 9 /\ nth2 g r i = Some (Num v).

Definition col_has (g : Grid) (c : nat) (v : Z) : Prop :=
  exists i, i < 9 /\ nth2 g i c = Some (Num v).

Definition region_has (g : Grid) (r c : nat) (v : Z) : Prop :=
  exists i j, i < 3 /\ j < 3 /\ nth2 g (r / 3 * 3 + i) (c / 3 * 3 + j) = Some (Num v).

(** No cell of the row, column or region of [(r, c)] holds [v]. *)
Definition placement_ok (g : Grid) (r c : nat) (v : Z) : Prop :=
  ~ row_has g r v /\ ~ col_has g c v /\ ~ region_has g r c v.


(** The contract the solver is proved against: on a well-formed array,
    [chk g r c v] accepts exactly when [v] already sits at [(r, c)] or no
    cell sharing a unit with [(r, c)] holds [v]. *)
Definition placement_oracle (chk : Grid -> nat -> nat -> Z -> bool) : Prop :=
  forall g r c v, grid_wf g -> r < 9 -> c < 9 ->
    chk g r c v = true <-> nth2 g r c = Some (Num v) \/ unit_free g r c v.

(** ** Decidability *)

Lemma exists_below_Exists (P : nat -> Prop) (n : nat) : (exists i, i < n /\ P i) <-> Exists P (seq 0 n).
Proof. rewrite Exists_exists. setoid_rewrite elem_of_seq. split; intros (i & ? & ?); exists i; split; auto; lia. Qed.

#[export] Instance exists_below_dec (P : nat -> Prop) `{!forall i, Decision (P i)} (n : nat) :
  Decision (exists i, i < n /\ P i).
Proof.
  destruct (decide (Exists P (seq 0 n))) as [HE|HE];
    [left; by apply exists_below_Exists | right; by rewrite exists_below_Exists].
Defined.

#[export] Instance row_has_dec g r v : Decision (row_has g r v).
Proof. unfold row_has. apply _. Defined.

#[export] Instance col_has_dec g c v : Decision (col_has g c v).
Proof. unfold col_has. apply _. Defined.

#[export] Instance region_has_dec g r c v : Decision (region_has g r c v).
Proof.
  unfold region_has.
  destruct (decide (exists i, i < 3 /\ exists j, j < 3 /\
    nth2 g (r / 3 * 3 + i) (c / 3 * 3 + j) = Some (Num v))) as [HR|HR]; [left|right]; naive_solver.
Defined.

(** ** Lemmas *)

Lemma cell_at_nat g (r c : nat) : cell_at g (Num (Z.of_nat r)) (Num (Z.of_nat c)) = nth2 g r c.
Proof. simpl. rewrite !Nat2Z.id. by destruct (Z.leb_spec 0 (Z.of_nat r)), (Z.leb_spec 0 (Z.of_nat c)); try lia. Qed.

Lemma cell_at_NaN_r g c : cell_at g NaN c = None.
Proof. done. Qed.

Lemma cell_at_NaN_c g r : cell_at g r NaN = None.
Proof. by destruct r. Qed.

Lemma forallb_js_range (f : JsNum -> bool) z n :
  forallb f (js_range (Num z) n) = true <-> forall k, k < n -> f (Num (z + Z.of_nat k)) = true.
Proof.
  unfold js_range. rewrite forallb_Forall, Forall_fmap, Forall_forall.
  setoid_rewrite elem_of_seq. split; intros H k Hk; apply H; lia.
Qed.

Lemma not_has_forall (P : nat -> Prop) (n : nat) :
  (forall k, k < n -> ~ P k) <-> ~ exists k, k < n /\ P k.
Proof. naive_solver. Qed.

Lemma region_index (r i : nat) : (Z.of_nat r / 3 * 3 + Z.of_nat i)%Z = Z.of_nat (r / 3 * 3 + i).
Proof. by rewrite Nat2Z.inj_add, Nat2Z.inj_mul, Nat2Z.inj_div. Qed.

#[export] Hint Rewrite cell_at_nat cell_at_NaN_r cell_at_NaN_c js_strict_eq_false : sudoku_rw.

(** [checkRowPlacement] scans row [r] of the decoded string. *)
Lemma checkRowPlacement_spec s (r : nat) col v :
  checkRowPlacement s (Num (Z.of_nat r)) col (Num v) = true <-> ~ row_has (buildPuzzle s) r v.
Proof.
  unfold checkRowPlacement, row_has. rewrite forallb_js_range, <- not_has_forall.
  apply forall_proper; intros k. rewrite Z.add_0_l, negb_true_iff. autorewrite with sudoku_rw.
  naive_solver.
Qed.

Lemma checkColPlacement_spec s row (c : nat) v :
  checkColPlacement s row (Num (Z.of_nat c)) (Num v) = true <-> ~ col_has (buildPuzzle s) c v.
Proof.
  unfold checkColPlacement, col_has. rewrite forallb_js_range, <- not_has_forall.
  apply forall_proper; intros k. rewrite Z.add_0_l, negb_true_iff. autorewrite with sudoku_rw.
  naive_solver.
Qed.

Lemma checkRegionPlacement_spec s (r c : nat) v :
  checkRegionPlacement s (Num (Z.of_nat r)) (Num (Z.of_nat c)) (Num v) = true
  <-> ~ region_has (buildPuzzle s) r c v.
Proof.
  unfold checkRegionPlacement, region_has. simpl region_start.
  rewrite forallb_js_range. setoid_rewrite forallb_js_range.
  setoid_rewrite negb_true_iff. setoid_rewrite region_index.
  setoid_rewrite cell_at_nat. setoid_rewrite js_strict_eq_false. naive_solver.
Qed.

(** With a NaN column, the column and region scans find nothing. *)
Lemma checkColPlacement_NaN s row v : checkColPlacement s row NaN v = true.
Proof. unfold checkColPlacement. apply forallb_forall. intros i _. by rewrite cell_at_NaN_c. Qed.

Lemma checkRegionPlacement_NaN s row v : checkRegionPlacement s row NaN v = true.
Proof. unfold checkRegionPlacement. apply forallb_forall. intros i _. reflexivity. Qed.

(** On the rows and columns of the board, the three scans together say that
    no cell sharing a unit with [(r, c)] holds [v]. *)
Lemma placement_ok_unit_free g r c v :
  r < 9 -> c < 9 -> placement_ok g r c v <-> unit_free g r c v.
Proof.
  intros Hr Hc. unfold placement_ok, unit_free, all_cells, row_has, col_has, region_has, same_unit.
  split.
  - intros (Hrow & Hcol & Hreg) r' c' Hr' Hc' Hu Hv.
    apply orb_true_iff in Hu as [Hu|Hu]; [apply orb_true_iff in Hu as [Hu|Hu]|].
    + apply Nat.eqb_eq in Hu; subst. apply Hrow; eauto.
    + apply Nat.eqb_eq in Hu; subst. apply Hcol; eauto.
    + apply andb_true_iff in Hu as [H1 H2]. apply Nat.eqb_eq in H1, H2.
      destruct (div3_mod3 r') as [Er Hr3], (div3_mod3 c') as [Ec Hc3].
      apply Hreg. exists (r' mod 3), (c' mod 3). split; [lia|split; [lia|]].
      rewrite H1, H2, <- Er, <- Ec. done.
  - intros H. split; [|split].
    + intros (i & Hi & Hv). eapply (H r i); eauto. by rewrite Nat.eqb_refl.
    + intros (i & Hi & Hv). eapply (H i c); eauto. by rewrite Nat.eqb_refl, orb_true_r.
    + intros (i & j & Hi & Hj & Hv).
      destruct (div3_mod3 r) as [Er _], (div3_mod3 c) as [Ec _].
      eapply H; [..| exact Hv]; try lia.
      apply orb_true_iff; right. apply andb_true_iff; split; apply Nat.eqb_eq;
        symmetry; by apply div3_block.
Qed.

Lemma check_iff (g : Grid) (r c : nat) (v : Z) :
  grid_wf g -> r < 9 -> c < 9 ->
  check g r c v = true <-> nth2 g r c = Some (Num v) \/ unit_free g r c v.
Proof.
  intros Hwf Hr Hc. unfold check.
  rewrite orb_true_iff, js_strict_eq_num, !andb_true_iff, checkRowPlacement_spec,
    checkColPlacement_spec, checkRegionPlacement_spec, buildPuzzle_of_buildPuzzleString by done.
  rewrite <- placement_ok_unit_free by done. unfold placement_ok. tauto.
Qed.

(** C18: on a well-formed array and a cell of the board, [check] accepts a
    value exactly when the value already sits in that cell or no cell of
    its row, its column or its region holds it. *)
Theorem check_spec (g : Grid) (r c : nat) (v : Z) :
  grid_wf g -> r < 9 -> c < 9 ->
  check g r c v = true <-> nth2 g r c = Some (Num v) \/ unit_free g r c v.
Proof. intros; eapply check_iff; eassumption. Qed.

Lemma check_spec_witness :
  grid_wf (buildPuzzle test_puzzle) /\ 0 < 9 /\ 1 < 9 /\
  (check (buildPuzzle test_puzzle) 0 1 3 = true
   <-> nth2 (buildPuzzle test_puzzle) 0 1 = Some (Num 3) \/ unit_free (buildPuzzle test_puzzle) 0 1 3).
Proof.
  assert (H : grid_wf (buildPuzzle test_puzzle)) by decide_by_eval.
  split; [exact H | split; [lia | split; [lia | apply (check_spec _ 0 1 3 H); lia]]].
Defined.

Lemma check_oracle : placement_oracle check.
Proof. intros g r c v. apply check_iff. Qed.

(** A NaN value is found nowhere: [NaN === x] is always false. *)
Lemma placements_NaN_value s row col :
  checkRowPlacement s row col NaN = true /\ checkColPlacement s row col NaN = true
  /\ checkRegionPlacement s row col NaN = true.
Proof.
  unfold checkRowPlacement, checkColPlacement, checkRegionPlacement.
  split; [|split]; apply forallb_forall; intros i _; [| |apply forallb_forall; intros j _];
    by rewrite js_strict_eq_NaN.
Qed.
