(* ===== verification/Solver.v ===== *)
(** * Solver: [solveLoc] and [solve]

    Models [solve] and [solveLoc] of [src/controllers/sudoku-solver.js]
    (lines 97-120).  [solveLoc(puzzle, row, col)] mutates the array
    [puzzle] in place and returns a boolean; here the array is passed
    explicitly: [solveLoc] takes the array and returns the boolean together
    with the array as the call leaves it, so a failed recursive call hands
    back the cells it reset, exactly as the JavaScript sees them.  The
    [for (num = 1..9)] loop is [try_nums], which receives the recursive
    call [solveLoc(puzzle, row, col + 1)] as [solve_next].

    The recursion is bounded by a fuel argument ([None] means the fuel ran
    out).  Each call moves one cell forward in row-major order, so from
    cell [p = 9 * row + col] at most [82 - p] calls are made; [solve]
    gives 82 and [solveLoc_total] shows that is never too little.

    The search is written in a section over the placement test [check], so
    that its theorems rely only on the contract [placement_oracle] of
    [Placement]; [solve] instantiates it with the program's [check]. *)

From Stdlib Require Import ZArith String Ascii.
From stdpp Require Import base list.
From S2P Require Import Prelude Codec Validator Rules Placement.

(** [puzzle[row][col] = x].  The solver only writes cells of the board, so
    [puzzle[row]] always exists (JavaScript would throw otherwise). *)
Definition set2 (puzzle : Grid) (row col : nat) (x : JsNum) : Grid :=
  match puzzle !! row with
  | Some r => <[row := <[col := x]> r]> puzzle
  | None => puzzle
  end.

(** [puzzle[row][col] > 0]; [undefined > 0] and [NaN > 0] are false. *)
Definition cell_gt0 (x : option JsNum) : bool :=
  match x with Some n => js_gt n 0 | None => false end.

Section Search.
Context (check : Grid -> nat -> nat -> Z -> bool).

(** [for (let num = 1; num <= 9; num++) { ... }]: try each candidate;
    after a failed candidate (rejected, or accepted but the rest of the
    search failed) the cell is reset to 0. *)
Fixpoint try_nums (solve_next : Grid -> option (bool * Grid)) (row col : nat)
    (nums : list nat) (puzzle : Grid) : option (bool * Grid) :=
  match nums with
  | [] => Some (false, puzzle)
  | num :: rest =>
      if check puzzle row col (Z.of_nat num) then
        let puzzle1 := set2 puzzle row col (Num (Z.of_nat num)) in
        match solve_next puzzle1 with
        | None => None
        | Some (true, puzzle2) => Some (true, puzzle2)
        | Some (false, puzzle2) => try_nums solve_next row col rest (set2 puzzle2 row col (Num 0))
        end
      else try_nums solve_next row col rest (set2 puzzle row col (Num 0))
  end.

Fixpoint solveLoc (fuel : nat) (puzzle : Grid) (row col : nat) : option (bool * Grid) :=
  match fuel with
  | 0 => None
  | S fuel' =>
      if (row =? 8) && (col =? 9) then Some (true, puzzle) else
      let '(row, col) := if col =? 9 then (S row, 0) else (row, col) in
      if cell_gt0 (nth2 puzzle row col) then solveLoc fuel' puzzle row (S col)
      else try_nums (fun p => solveLoc fuel' p row (S col)) row col (seq 1 9) puzzle
  end.
End Search.

Definition solve (puzzleString : option string) : Response :=
  match validate puzzleString with
  | Some err => err
  | None =>
      let puzzle := buildPuzzle (default ""%string puzzleString) in
      match solveLoc check 82 puzzle 0 0 with
      | Some (true, solved) => RSolution (buildPuzzleString solved)
      | _ => RError "Puzzle cannot be solved"
      end
  end.

(** ** What the search guarantees *)

(** Cell [(r, c)] is visited at step [pos r c]; [(8, 9)] is the end. *)
Definition pos (r c : nat) : nat := 9 * r + c.

(** What a successful search started at step [p] on the array [g] ensures
    of the array [g'] it returns: the cells before [p] are untouched, and
    every cell from [p] on is filled, keeps its value if it had one, and,
    if it was empty, obeys the rules in [g']. *)
Definition search_post (g : Grid) (p : nat) (g' : Grid) : Prop :=
  grid_wf g' /\
  all_cells (fun r c => pos r c < p -> nth2 g' r c = nth2 g r c) /\
  all_cells (fun r c => p <= pos r c ->
    filled_cell (nth2 g' r c) /\ keeps_cell g g' r c /\
    (nth2 g r c = Some (Num 0) -> cell_ok g' r c)).

(** ** The array update *)

Lemma nth2_set2_eq g r c x : grid_wf g -> r < 9 -> c < 9 -> nth2 (set2 g r c x) r c = Some x.
Proof.
  intros Hwf Hr Hc. unfold set2, nth2.
  destruct (lookup_lt_is_Some_2 g r) as [row Er]; [destruct Hwf; lia|]. rewrite Er.
  rewrite list_lookup_insert_eq by (destruct Hwf; lia). simpl.
  apply list_lookup_insert_eq. rewrite (grid_wf_rows g r row); auto.
Qed.

Lemma nth2_set2_ne g r c x r' c' : (r', c') <> (r, c) -> nth2 (set2 g r c x) r' c' = nth2 g r' c'.
Proof.
  intros Hne. unfold set2, nth2. destruct (g !! r) as [row|] eqn:Er; [|done].
  destruct (decide (r' = r)) as [->|Hr].
  - rewrite Er. pose proof (lookup_lt_Some _ _ _ Er) as Hlt.
    rewrite list_lookup_insert_eq by done. simpl. rewrite list_lookup_insert_ne; [done|congruence].
  - by rewrite list_lookup_insert_ne by congruence.
Qed.

Lemma set2_wf g r c x : grid_wf g -> digit_cell x = true -> grid_wf (set2 g r c x).
Proof.
  intros [Hl HF] Hx. unfold set2. destruct (g !! r) as [row|] eqn:Er; [|by split].
  split; [by rewrite length_insert|]. apply Forall_insert; [done|].
  destruct (Forall_lookup_1 _ _ _ _ HF Er) as [Hrow HR].
  split; [by rewrite length_insert | by apply Forall_insert].
Qed.

Lemma set2_id g r c x : nth2 g r c = Some x -> set2 g r c x = g.
Proof.
  unfold set2, nth2. destruct (g !! r) as [row|] eqn:Er; [|done]. simpl. intros Hx.
  rewrite (list_insert_id row c x Hx). by apply list_insert_id.
Qed.

Lemma set2_set2 g r c x y : set2 (set2 g r c x) r c y = set2 g r c y.
Proof.
  unfold set2. destruct (g !! r) as [row|] eqn:Er; [|by rewrite Er].
  pose proof (lookup_lt_Some _ _ _ Er) as Hlt.
  rewrite list_lookup_insert_eq by done. by rewrite !list_insert_insert_eq.
Qed.

Lemma set2_restore g r c x : nth2 g r c = Some (Num 0) -> set2 (set2 g r c x) r c (Num 0) = g.
Proof. intros H. by rewrite set2_set2, set2_id. Qed.

(** A well-formed cell that is not above 0 is an empty cell. *)
Lemma cell_gt0_false g r c :
  grid_wf g -> r < 9 -> c < 9 -> cell_gt0 (nth2 g r c) = false -> nth2 g r c = Some (Num 0).
Proof.
  intros Hwf Hr Hc. destruct (grid_wf_cell g r c) as (z & -> & Hz); auto.
  simpl. intros Hgt%Z.ltb_ge. do 2 f_equal. lia.
Qed.

Lemma cell_gt0_true g r c :
  grid_wf g -> r < 9 -> c < 9 -> cell_gt0 (nth2 g r c) = true ->
  exists z, nth2 g r c = Some (Num z) /\ (1 <= z <= 9)%Z.
Proof.
  intros Hwf Hr Hc. destruct (grid_wf_cell g r c) as (z & -> & Hz); auto.
  simpl. intros Hgt%Z.ltb_lt. exists z. split; [done|lia].
Qed.

(** A candidate of the loop, or the reset value 0, is a well-formed cell. *)
Lemma digit_cell_of_nat (k : nat) : k <= 9 -> digit_cell (Num (Z.of_nat k)) = true.
Proof. intros Hk. simpl. apply andb_true_intro. split; apply Z.leb_le; lia. Qed.

#[export] Hint Resolve digit_cell_of_nat : sudoku.

(** ** Positions in row-major order *)

Lemma pos_inj r c r' c' : r < 9 -> c < 9 -> r' < 9 -> c' < 9 -> pos r c = pos r' c' -> r = r' /\ c = c'.
Proof. unfold pos. lia. Qed.

Lemma pos_lt r c : r < 9 -> c < 9 -> pos r c < 81.
Proof. unfold pos. lia. Qed.

#[export] Hint Resolve pos_lt : sudoku.

Section SearchProofs.
Context (check : Grid -> nat -> nat -> Z -> bool).

(** One step of [solveLoc] away from the end: the wrap from column 9 to
    the next row, then the test of the cell. *)
Lemma solveLoc_step fuel g row col :
  row <= 8 -> col <= 9 -> ~ (row = 8 /\ col = 9) ->
  exists r c, r < 9 /\ c < 9 /\ pos r c = pos row col /\
    solveLoc check (S fuel) g row col
    = if cell_gt0 (nth2 g r c) then solveLoc check fuel g r (S c)
      else try_nums check (fun p => solveLoc check fuel p r (S c)) r c (seq 1 9) g.
Proof.
  intros Hr Hc Hend. cbn [solveLoc].
  assert ((row =? 8) && (col =? 9) = false) as ->.
  { destruct (Nat.eqb_spec row 8), (Nat.eqb_spec col 9); [tauto|done..]. }
  destruct (Nat.eqb_spec col 9) as [->|H9].
  - exists (S row), 0. split; [|split; [|split; [unfold pos; lia|reflexivity]]]; lia.
  - exists row, col. split; [|split; [|split; [done|reflexivity]]]; lia.
Qed.

Lemma solveLoc_end fuel g : solveLoc check (S fuel) g 8 9 = Some (true, g).
Proof. reflexivity. Qed.

Lemma try_nums_not_None solve_next r c nums g :
  (forall p, solve_next p <> None) -> try_nums check solve_next r c nums g <> None.
Proof.
  intros Hnext. revert g; induction nums as [|k nums IH]; intros g; simpl; [done|].
  destruct (check g r c (Z.of_nat k)); [|apply IH].
  destruct (solve_next _) as [[[] p]|] eqn:E; [done | apply IH | by apply Hnext in E].
Qed.

Lemma solveLoc_not_None fuel g row col :
  row <= 8 -> col <= 9 -> 82 - pos row col <= fuel -> solveLoc check fuel g row col <> None.
Proof.
  revert g row col; induction fuel as [|fuel IH]; intros g row col Hr Hc Hf.
  - unfold pos in Hf. lia.
  - destruct (decide (row = 8 /\ col = 9)) as [[-> ->]|Hend]; [done|].
    destruct (solveLoc_step fuel g row col) as (r & c & Hr' & Hc' & Hp & ->); auto.
    assert (82 - pos r (S c) <= fuel) by (unfold pos in *; lia).
    destruct (cell_gt0 _); [apply IH; lia|].
    apply try_nums_not_None. intros p. apply IH; lia.
Qed.

(** C5: [solveLoc] returns within its fuel: from cell [(row, col)] it
    makes at most [82 - pos row col] nested calls, whatever the array. *)
Theorem solveLoc_total fuel g row col :
  row <= 8 -> col <= 9 -> 82 - pos row col <= fuel -> solveLoc check fuel g row col <> None.
Proof. intros; eapply solveLoc_not_None; eassumption. Qed.

Lemma try_nums_restore solve_next r c nums g g' :
  grid_wf g -> nth2 g r c = Some (Num 0) -> (forall k, k ∈ nums -> k <= 9) ->
  (forall p p', grid_wf p -> solve_next p = Some (false, p') -> p' = p) ->
  try_nums check solve_next r c nums g = Some (false, g') -> g' = g.
Proof.
  intros Hwf H0 Hnums Hnext. revert Hnums; induction nums as [|k nums IH]; intros Hnums; simpl.
  - congruence.
  - assert (digit_cell (Num (Z.of_nat k)) = true).
    { assert (k <= 9) by (apply Hnums; left). apply andb_true_iff; split; apply Z.leb_le; lia. }
    destruct (check g r c (Z.of_nat k)).
    + destruct (solve_next _) as [[[] p]|] eqn:E; try congruence.
      apply Hnext in E; [|by apply set2_wf]. subst p.
      rewrite set2_restore by done. intros; apply IH; auto. intros; apply Hnums; by right.
    + rewrite set2_id by done. intros; apply IH; auto. intros; apply Hnums; by right.
Qed.

Lemma solveLoc_false_same fuel g row col g' :
  grid_wf g -> row <= 8 -> col <= 9 ->
  solveLoc check fuel g row col = Some (false, g') -> g' = g.
Proof.
  revert g row col g'; induction fuel as [|fuel IH]; intros g row col g' Hwf Hr Hc; [done|].
  destruct (decide (row = 8 /\ col = 9)) as [[-> ->]|Hend]; [by rewrite solveLoc_end|].
  destruct (solveLoc_step fuel g row col) as (r & c & Hr' & Hc' & Hp & ->); auto.
  destruct (cell_gt0 _) eqn:Hgt; [apply IH; auto; lia|].
  apply try_nums_restore; auto using cell_gt0_false.
  - intros k Hk%elem_of_seq. lia.
  - intros p p' Hp'. apply IH; auto; lia.
Qed.

(** C6: a failed search leaves the array as it found it: every cell it
    tried is reset to 0, so the caller's next candidate is tested against
    the same array. *)
Theorem solveLoc_restore fuel g row col g' :
  grid_wf g -> row <= 8 -> col <= 9 ->
  solveLoc check fuel g row col = Some (false, g') -> g' = g.
Proof. intros; eapply solveLoc_false_same; eassumption. Qed.

Lemma try_nums_wf solve_next r c nums g b g' :
  grid_wf g -> (forall k, k ∈ nums -> k <= 9) ->
  (forall p b' p', grid_wf p -> solve_next p = Some (b', p') -> grid_wf p') ->
  try_nums check solve_next r c nums g = Some (b, g') -> grid_wf g'.
Proof.
  intros Hwf Hnums Hnext. revert g Hwf; induction nums as [|k nums IH]; intros g Hwf; cbn [try_nums].
  - congruence.
  - assert (Hk : digit_cell (Num (Z.of_nat k)) = true) by (apply digit_cell_of_nat, Hnums; left).
    assert (IH' : forall p, grid_wf p -> try_nums check solve_next r c nums p = Some (b, g') -> grid_wf g')
      by (intros p Hp; apply IH; [intros j ?; apply Hnums; by right | done]).
    destruct (check _ _ _ _); [|apply IH', set2_wf; auto with sudoku].
    destruct (solve_next _) as [[[] p2]|] eqn:E; [|apply IH'|done].
    + intros [= _ <-]. eapply Hnext; [|exact E]. by apply set2_wf.
    + apply set2_wf; [|done]. eapply Hnext; [|exact E]. by apply set2_wf.
Qed.

(** C12: type invariant of the search.  Whatever the placement test, the
    fuel and the start cell, the array [solveLoc] hands back, on success
    as on failure, is still a 9x9 array of numbers from 0 to 9: the only
    writes are a candidate from 1 to 9 and the reset to 0. *)
Theorem solveLoc_wf fuel g row col b g' :
  grid_wf g -> solveLoc check fuel g row col = Some (b, g') -> grid_wf g'.
Proof.
  revert g row col b g'; induction fuel as [|fuel IH]; intros g row col b g' Hwf; cbn [solveLoc]; [done|].
  destruct ((row =? 8) && (col =? 9)); [congruence|].
  destruct (col =? 9); cbn beta iota; (destruct (cell_gt0 _); [by apply IH|]);
    intros Ht; (eapply try_nums_wf; [exact Hwf | | | exact Ht]);
    first [intros k ?%elem_of_seq; lia | intros p b' p' Hp; by apply IH].
Qed.

Lemma post_end g : grid_wf g -> search_post g 81 g.
Proof. intros Hwf. split; [done|split]; intros r c Hr Hc H; [done | unfold pos in H; lia]. Qed.

Lemma post_filled g g' r c z :
  r < 9 -> c < 9 -> nth2 g r c = Some (Num z) -> (1 <= z <= 9)%Z ->
  search_post g (pos r c + 1) g' -> search_post g (pos r c) g'.
Proof.
  intros Hr Hc Hz Hb (Hwf' & Hbefore & Hafter). split; [done|split].
  - intros r' c' Hr' Hc' Hlt. apply Hbefore; auto; lia.
  - intros r' c' Hr' Hc' Hle. destruct (decide (pos r' c' = pos r c)) as [E|E].
    + destruct (pos_inj r' c' r c) as [-> ->]; auto.
      assert (nth2 g' r c = Some (Num z)) as Hz' by (rewrite Hbefore; auto; lia).
      unfold keeps_cell. rewrite Hz, Hz'. split; [done|split; [done|intros [= ->]; lia]].
    + apply Hafter; auto; lia.
Qed.

(** The value [v] placed at an empty [(r, c)] after [check] accepted it
    has no peer holding [v] in the array the rest of the search returns:
    peers before [(r, c)] are untouched and were free of [v]; a given peer
    after it is kept and was free of [v]; an empty peer after it was
    filled later with a value that had to avoid [v]. *)
Lemma placed_cell_ok g g' r c v :
  grid_wf g -> r < 9 -> c < 9 -> nth2 g r c = Some (Num 0) -> (1 <= v)%Z ->
  unit_free g r c v -> search_post (set2 g r c (Num v)) (pos r c + 1) g' -> cell_ok g' r c.
Proof.
  intros Hwf Hr Hc H0 Hv Hfree (Hwf' & Hbefore & Hafter).
  assert (Hp : nth2 g' r c = Some (Num v)).
  { rewrite Hbefore by (auto; lia). by apply nth2_set2_eq. }
  unfold cell_ok. rewrite Hp. intros _ r' c' Hr' Hc' Hpeer Hq.
  apply peer_same_unit in Hpeer as [Hunit Hne].
  assert (Hg1 : nth2 (set2 g r c (Num v)) r' c' = nth2 g r' c') by (apply nth2_set2_ne; congruence).
  destruct (decide (pos r' c' < pos r c)) as [Hlt|Hge].
  - rewrite Hbefore, Hg1 in Hq by (auto; lia). exact (Hfree r' c' Hr' Hc' Hunit Hq).
  - assert (pos r' c' <> pos r c) by (intros E; apply Hne; destruct (pos_inj r' c' r c); subst; auto).
    destruct (Hafter r' c' Hr' Hc') as (_ & Hkeep & Hzero); [lia|].
    unfold keeps_cell in Hkeep. rewrite Hg1 in Hkeep, Hzero.
    destruct (grid_wf_cell g r' c') as (z & Hz & Hzb); auto. rewrite Hz in Hkeep, Hzero.
    destruct (decide (z = 0%Z)) as [->|Hz0].
    + specialize (Hzero eq_refl). unfold cell_ok in Hzero. rewrite Hq in Hzero.
      apply (Hzero ltac:(lia) r c Hr Hc); [|done].
      rewrite peer_sym. by apply peer_same_unit.
    + rewrite Hkeep in Hq by lia. injection Hq as ->.
      exact (Hfree r' c' Hr' Hc' Hunit Hz).
Qed.

Lemma post_placed g g' r c v :
  grid_wf g -> r < 9 -> c < 9 -> nth2 g r c = Some (Num 0) -> (1 <= v <= 9)%Z ->
  unit_free g r c v -> search_post (set2 g r c (Num v)) (pos r c + 1) g' ->
  search_post g (pos r c) g'.
Proof.
  intros Hwf Hr Hc H0 Hv Hfree Hpost.
  pose proof (placed_cell_ok g g' r c v Hwf Hr Hc H0 ltac:(lia) Hfree Hpost) as Hok.
  destruct Hpost as (Hwf' & Hbefore & Hafter). split; [done|split].
  - intros r' c' Hr' Hc' Hlt. rewrite Hbefore by (auto; lia).
    apply nth2_set2_ne. intros [= -> ->]. lia.
  - intros r' c' Hr' Hc' Hle. destruct (decide (pos r' c' = pos r c)) as [E|E].
    + destruct (pos_inj r' c' r c) as [-> ->]; auto.
      assert (nth2 g' r c = Some (Num v)) as Hp.
      { rewrite Hbefore by (auto; lia). by apply nth2_set2_eq. }
      unfold keeps_cell. rewrite Hp, H0. split; [done|split; [lia|done]].
    + assert (Hg1 : nth2 (set2 g r c (Num v)) r' c' = nth2 g r' c').
      { apply nth2_set2_ne. intros [= -> ->]. done. }
      destruct (Hafter r' c' Hr' Hc') as (Hf & Hkeep & Hzero); [lia|].
      unfold keeps_cell in *. rewrite Hg1 in Hkeep, Hzero. done.
Qed.

Lemma try_nums_true solve_next r c nums g g' :
  grid_wf g -> nth2 g r c = Some (Num 0) -> (forall k, k ∈ nums -> k <= 9) ->
  (forall p p', grid_wf p -> solve_next p = Some (false, p') -> p' = p) ->
  try_nums check solve_next r c nums g = Some (true, g') ->
  exists k, k ∈ nums /\ check g r c (Z.of_nat k) = true
    /\ solve_next (set2 g r c (Num (Z.of_nat k))) = Some (true, g').
Proof.
  intros Hwf H0 Hnums Hnext. revert Hnums; induction nums as [|k nums IH]; intros Hnums; simpl.
  - congruence.
  - assert (Hk : digit_cell (Num (Z.of_nat k)) = true).
    { assert (k <= 9) by (apply Hnums; left). apply andb_true_iff; split; apply Z.leb_le; lia. }
    assert (Hrest : forall k', k' ∈ nums -> k' <= 9) by (intros; apply Hnums; by right).
    destruct (check g r c (Z.of_nat k)) eqn:Hchk.
    + destruct (solve_next _) as [[[] p]|] eqn:E; try congruence.
      * intros [= <-]. exists k. split; [left|done].
      * apply Hnext in E; [|by apply set2_wf]. subst p. rewrite set2_restore by done.
        intros H. destruct (IH Hrest H) as (k' & ? & ? & ?). exists k'. split; [by right|done].
    + rewrite set2_id by done.
      intros H. destruct (IH Hrest H) as (k' & ? & ? & ?). exists k'. split; [by right|done].
Qed.

Context (check_ok : placement_oracle check).

(** An accepted candidate for an empty cell is free in its units. *)
Lemma check_empty_unit_free g r c (k : nat) :
  grid_wf g -> r < 9 -> c < 9 -> nth2 g r c = Some (Num 0) -> 1 <= k ->
  check g r c (Z.of_nat k) = true -> unit_free g r c (Z.of_nat k).
Proof.
  intros Hwf Hr Hc H0 Hk Hchk. apply check_ok in Hchk as [Hin|Hfree]; auto.
  rewrite H0 in Hin. injection Hin. lia.
Qed.

Lemma solveLoc_true_post fuel g row col g' :
  grid_wf g -> row <= 8 -> col <= 9 ->
  solveLoc check fuel g row col = Some (true, g') -> search_post g (pos row col) g'.
Proof.
  revert g row col g'; induction fuel as [|fuel IH]; intros g row col g' Hwf Hr Hc; [done|].
  destruct (decide (row = 8 /\ col = 9)) as [[-> ->]|Hend].
  { rewrite solveLoc_end. intros [= <-]. by apply post_end. }
  destruct (solveLoc_step fuel g row col) as (r & c & Hr' & Hc' & <- & ->); auto.
  destruct (cell_gt0 _) eqn:Hgt.
  - destruct (cell_gt0_true g r c) as (z & Hz & Hzb); auto.
    intros H. eapply post_filled; eauto.
    replace (pos r c + 1) with (pos r (S c)) by (unfold pos; lia). apply IH; auto; lia.
  - pose proof (cell_gt0_false g r c Hwf Hr' Hc' Hgt) as H0. intros H.
    apply try_nums_true in H as (k & Hk%elem_of_seq & Hchk & Hrec); auto.
    2: { intros k' Hk'%elem_of_seq. lia. }
    2: { intros p p' Hp. apply (solveLoc_false_same fuel); auto; lia. }
    apply (post_placed g g' r c (Z.of_nat k)); auto; [lia|by apply check_empty_unit_free; auto; lia|].
    replace (pos r c + 1) with (pos r (S c)) by (unfold pos; lia).
    apply IH; auto; [|lia]. apply set2_wf; auto. apply andb_true_iff; split; apply Z.leb_le; lia.
Qed.

(** C7: a successful search from [(row, col)] returns an array that
    leaves the earlier cells alone, fills every later cell, keeps the
    given ones, and places in each empty one a value no peer holds. *)
Theorem solveLoc_sound fuel g row col g' :
  grid_wf g -> row <= 8 -> col <= 9 ->
  solveLoc check fuel g row col = Some (true, g') -> search_post g (pos row col) g'.
Proof. intros; eapply solveLoc_true_post; eassumption. Qed.

(** The value a solution puts in an empty cell is free in that cell's
    units of any array the solution extends. *)
Lemma unit_free_solution g sol r c v :
  consistent sol -> extends g sol -> r < 9 -> c < 9 -> nth2 g r c = Some (Num 0) ->
  nth2 sol r c = Some (Num v) -> (1 <= v)%Z -> unit_free g r c v.
Proof.
  intros Hcons Hext Hr Hc H0 HS Hv r' c' Hr' Hc' Hunit Hq.
  destruct (decide ((r, c) = (r', c'))) as [[= <- <-]|Hne]; [rewrite H0 in Hq; injection Hq; lia|].
  specialize (Hext r' c' Hr' Hc'). unfold keeps_cell in Hext. rewrite Hq in Hext.
  specialize (Hcons r c Hr Hc). unfold cell_ok in Hcons. rewrite HS in Hcons.
  apply (Hcons ltac:(lia) r' c' Hr' Hc'); [by apply peer_same_unit | apply Hext; lia].
Qed.

Lemma extends_set2 g sol r c v :
  grid_wf g -> r < 9 -> c < 9 ->
  extends g sol -> nth2 sol r c = Some (Num v) -> extends (set2 g r c (Num v)) sol.
Proof.
  intros Hwf Hr Hc Hext HS r' c' Hr' Hc'. unfold keeps_cell.
  destruct (decide ((r', c') = (r, c))) as [[= -> ->]|Hne].
  - by rewrite nth2_set2_eq.
  - rewrite nth2_set2_ne by done. apply Hext; auto.
Qed.

(** The loop reaches the solution's value for the cell at the latest:
    every earlier candidate either is rejected or fails and is undone. *)
Lemma try_nums_complete solve_next r c nums g sol v :
  grid_wf g -> r < 9 -> c < 9 -> nth2 g r c = Some (Num 0) ->
  consistent sol -> extends g sol -> nth2 sol r c = Some (Num v) -> (1 <= v)%Z ->
  (exists k, k ∈ nums /\ Z.of_nat k = v) -> (forall k, k ∈ nums -> k <= 9) ->
  (forall p, solve_next p <> None) ->
  (forall p p', grid_wf p -> solve_next p = Some (false, p') -> p' = p) ->
  (forall p, grid_wf p -> extends p sol -> exists p', solve_next p = Some (true, p')) ->
  exists g', try_nums check solve_next r c nums g = Some (true, g').
Proof.
  intros Hwf Hr Hc H0 Hcons Hext HS Hv Hin Hnums Htot Hrestore Hnext.
  induction nums as [|k nums IH]; [destruct Hin as (? & Hin & _); by apply elem_of_nil in Hin|].
  assert (Hk : digit_cell (Num (Z.of_nat k)) = true).
  { assert (k <= 9) by (apply Hnums; left). apply andb_true_iff; split; apply Z.leb_le; lia. }
  assert (Hrest : forall k', k' ∈ nums -> k' <= 9) by (intros; apply Hnums; by right).
  simpl. destruct (decide (Z.of_nat k = v)) as [<-|Hkv].
  - assert (check g r c (Z.of_nat k) = true) as ->.
    { apply check_ok; auto. right. by apply (unit_free_solution g sol). }
    destruct (Hnext (set2 g r c (Num (Z.of_nat k)))) as [p' ->]; [by apply set2_wf|by apply extends_set2|].
    eauto.
  - assert (Hin' : exists k', k' ∈ nums /\ Z.of_nat k' = v).
    { destruct Hin as (k' & Hk' & <-). apply elem_of_cons in Hk' as [->|Hk']; [done|eauto]. }
    destruct (check g r c (Z.of_nat k)).
    + destruct (solve_next _) as [[[] p]|] eqn:E; [eauto| |by apply Htot in E].
      apply Hrestore in E; [|by apply set2_wf]. subst p. rewrite set2_restore by done. auto.
    + rewrite set2_id by done. auto.
Qed.

Lemma solveLoc_true_exists fuel g row col sol :
  grid_wf g -> filled sol -> consistent sol -> extends g sol ->
  row <= 8 -> col <= 9 -> 82 - pos row col <= fuel ->
  exists g', solveLoc check fuel g row col = Some (true, g').
Proof.
  revert g row col; induction fuel as [|fuel IH]; intros g row col Hwf Hfill Hcons Hext Hr Hc Hf.
  { unfold pos in Hf. lia. }
  destruct (decide (row = 8 /\ col = 9)) as [[-> ->]|Hend]; [eauto|].
  destruct (solveLoc_step fuel g row col) as (r & c & Hr' & Hc' & Hp & ->); auto.
  assert (82 - pos r (S c) <= fuel) by (unfold pos in *; lia).
  destruct (cell_gt0 _) eqn:Hgt; [apply IH; auto; lia|].
  pose proof (Hfill r c Hr' Hc') as HS. unfold filled_cell in HS.
  destruct (nth2 sol r c) as [[v|]|] eqn:ES; try done.
  apply (try_nums_complete _ r c (seq 1 9) g sol v); auto using cell_gt0_false; try lia.
  - exists (Z.to_nat v). rewrite elem_of_seq. lia.
  - intros k Hk%elem_of_seq. lia.
  - intros p. apply solveLoc_not_None; lia.
  - intros p p' Hp'. apply solveLoc_false_same; auto; lia.
  - intros p Hp' Hextp. apply IH; auto; lia.
Qed.

(** C8: if some solution extends the array, the search from [(row, col)]
    with enough fuel succeeds. *)
Theorem solveLoc_complete fuel g row col sol :
  grid_wf g -> filled sol -> consistent sol -> extends g sol ->
  row <= 8 -> col <= 9 -> 82 - pos row col <= fuel ->
  exists g', solveLoc check fuel g row col = Some (true, g').
Proof. intros; eapply solveLoc_true_exists; eassumption. Qed.
End SearchProofs.

(** ** Witnesses of the search theorems, on small searches *)

Lemma solveLoc_total_witness :
  0 <= 8 /\ 0 <= 9 /\ 82 - pos 0 0 <= 82 /\ solveLoc check 82 (buildPuzzle test_puzzle) 0 0 <> None.
Proof.
  split; [lia|split; [lia|split; [unfold pos; lia|]]].
  apply (solveLoc_total check 82 _ 0 0); unfold pos; lia.
Defined.

Lemma solveLoc_restore_witness :
  let g := buildPuzzle "........9...............................................................12345678."%string in
  grid_wf g /\ solveLoc check 2 g 8 8 = Some (false, g) /\ g = g.
Proof.
  assert (H1 : grid_wf (buildPuzzle "........9...............................................................12345678."%string)) by decide_by_eval.
  assert (H2 : solveLoc check 2 (buildPuzzle "........9...............................................................12345678."%string) 8 8 = Some (false, buildPuzzle "........9...............................................................12345678."%string))
    by (vm_compute; reflexivity).
  split; [exact H1|split; [exact H2|]]. apply (solveLoc_restore check 2 _ 8 8 _ H1); [lia|lia|exact H2].
Defined.

Lemma solveLoc_sound_witness :
  let g := buildPuzzle "13576298494638125772845961369451783281293674535782419647329856158167342926914537."%string in
  grid_wf g /\ solveLoc check 2 g 8 8 = Some (true, buildPuzzle test_solution)
  /\ search_post g (pos 8 8) (buildPuzzle test_solution).
Proof.
  assert (H1 : grid_wf (buildPuzzle "13576298494638125772845961369451783281293674535782419647329856158167342926914537."%string)) by decide_by_eval.
  assert (H2 : solveLoc check 2 (buildPuzzle "13576298494638125772845961369451783281293674535782419647329856158167342926914537."%string) 8 8 = Some (true, buildPuzzle test_solution))
    by (vm_compute; reflexivity).
  split; [exact H1|split; [exact H2|]].
  apply (solveLoc_sound check check_oracle 2 _ 8 8 _ H1); [lia|lia|exact H2].
Defined.

Lemma solveLoc_complete_witness :
  let g := buildPuzzle "13576298494638125772845961369451783281293674535782419647329856158167342926914537."%string in
  let sol := buildPuzzle test_solution in
  grid_wf g /\ filled sol /\ consistent sol /\ extends g sol
  /\ exists g', solveLoc check 2 g 8 8 = Some (true, g').
Proof.
  assert (H1 : grid_wf (buildPuzzle "13576298494638125772845961369451783281293674535782419647329856158167342926914537."%string)) by decide_by_eval.
  assert (H2 : filled (buildPuzzle test_solution)) by decide_by_eval.
  assert (H3 : consistent (buildPuzzle test_solution)) by decide_by_eval.
  assert (H4 : extends (buildPuzzle "13576298494638125772845961369451783281293674535782419647329856158167342926914537."%string) (buildPuzzle test_solution)) by decide_by_eval.
  split; [exact H1|split; [exact H2|split; [exact H3|split; [exact H4|]]]].
  apply (solveLoc_complete check check_oracle 2 _ 8 8 _ H1 H2 H3 H4); unfold pos; lia.
Defined.

Lemma solveLoc_wf_witness :
  grid_wf (buildPuzzle "13576298494638125772845961369451783281293674535782419647329856158167342926914537."%string) /\
  solveLoc check 2 (buildPuzzle "13576298494638125772845961369451783281293674535782419647329856158167342926914537."%string) 8 8 = Some (true, buildPuzzle test_solution) /\
  grid_wf (buildPuzzle test_solution).
Proof.
  assert (H1 : grid_wf (buildPuzzle "13576298494638125772845961369451783281293674535782419647329856158167342926914537."%string)) by decide_by_eval.
  assert (H2 : solveLoc check 2 (buildPuzzle "13576298494638125772845961369451783281293674535782419647329856158167342926914537."%string) 8 8 = Some (true, buildPuzzle test_solution))
    by (vm_compute; reflexivity).
  split; [exact H1|split; [exact H2|]]. exact (solveLoc_wf check 2 _ 8 8 true _ H1 H2).
Defined.

(** ** The solver's answers *)

Lemma solve_validated s :
  validate (Some s) = None ->
  solve (Some s) = match solveLoc check 82 (buildPuzzle s) 0 0 with
                   | Some (true, solved) => RSolution (buildPuzzleString solved)
                   | _ => RError "Puzzle cannot be solved"
                   end.
Proof. intros H. unfold solve. by rewrite H. Qed.

(** A filled cell of a consistent puzzle stays consistent next to the
    values the search placed around it. *)
Lemma post_consistent g g' :
  grid_wf g -> consistent g -> search_post g 0 g' -> consistent g'.
Proof.
  intros Hwf Hcons (Hwf' & _ & Hafter) r c Hr Hc.
  destruct (Hafter r c Hr Hc) as (Hf & Hkeep & Hzero); [lia|].
  destruct (grid_wf_cell g r c) as (z & Hz & Hzb); auto.
  destruct (decide (z = 0%Z)) as [->|Hz0]; [by apply Hzero|].
  unfold keeps_cell in Hkeep. rewrite Hz in Hkeep. unfold cell_ok. rewrite Hkeep by lia.
  intros _ r' c' Hr' Hc' Hpeer Hq.
  destruct (Hafter r' c' Hr' Hc') as (_ & Hkeep' & Hzero'); [lia|].
  destruct (grid_wf_cell g r' c') as (z' & Hz' & Hzb'); auto.
  unfold keeps_cell in Hkeep'. rewrite Hz' in Hkeep', Hzero'.
  destruct (decide (z' = 0%Z)) as [->|Hz0'].
  - specialize (Hzero' eq_refl). unfold cell_ok in Hzero'. rewrite Hq in Hzero'.
    apply (Hzero' ltac:(lia) r c Hr Hc); [by rewrite peer_sym | by rewrite Hkeep by lia].
  - rewrite Hkeep' in Hq by lia. injection Hq as ->.
    specialize (Hcons r c Hr Hc). unfold cell_ok in Hcons. rewrite Hz in Hcons.
    exact (Hcons ltac:(lia) r' c' Hr' Hc' Hpeer Hz').
Qed.

(** The filled cells of a puzzle that has a solution obey the rules. *)
Lemma solution_givens_consistent p sol : solution_of p sol -> consistent p.
Proof.
  intros (Hwf & _ & Hcons & Hext) r c Hr Hc. unfold cell_ok.
  destruct (nth2 p r c) as [[z|]|] eqn:Ez; try done. intros Hz r' c' Hr' Hc' Hpeer Hq.
  pose proof (Hext r c Hr Hc) as E1. pose proof (Hext r' c' Hr' Hc') as E2.
  unfold keeps_cell in E1, E2. rewrite Ez in E1. rewrite Hq in E2.
  specialize (Hcons r c Hr Hc). unfold cell_ok in Hcons. rewrite E1 in Hcons by done.
  exact (Hcons Hz r' c' Hr' Hc' Hpeer (E2 Hz)).
Qed.

Lemma solve_result s out :
  puzzle_text s -> solve (Some s) = RSolution out ->
  exists g', out = buildPuzzleString g' /\ search_post (buildPuzzle s) 0 g'.
Proof.
  intros Hs. rewrite solve_validated by (by apply validate_of_puzzle_text).
  destruct (solveLoc check 82 (buildPuzzle s) 0 0) as [[[] g']|] eqn:E; try discriminate.
  intros [= <-]. exists g'. split; [done|].
  apply (solveLoc_true_post check check_oracle 82 _ 0 0); auto using buildPuzzle_wf; lia.
Qed.

Lemma solve_solution_sound (s out : string) :
  puzzle_text s -> consistent (buildPuzzle s) -> solve (Some s) = RSolution out ->
  solution_of (buildPuzzle s) (buildPuzzle out).
Proof.
  intros Hs Hcons Hsolve. destruct (solve_result s out Hs Hsolve) as (g' & -> & Hpost).
  pose proof (buildPuzzle_wf s Hs) as Hwf. pose proof Hpost as (Hwf' & _ & Hafter).
  rewrite buildPuzzle_of_buildPuzzleString by done. split; [done|split; [|split]].
  - intros r c Hr Hc. apply Hafter; auto; lia.
  - by apply (post_consistent (buildPuzzle s)).
  - intros r c Hr Hc. apply Hafter; auto; lia.
Qed.

(** C1: soundness. When the filled cells of a valid puzzle obey the rules,
    every answer [{solution: out}] of [solve] decodes to a solution of the
    puzzle: well formed, filled with 1 to 9, obeying the rules, and keeping
    the puzzle's filled cells. *)
Theorem solve_sound (s out : string) :
  puzzle_text s -> consistent (buildPuzzle s) -> solve (Some s) = RSolution out ->
  solution_of (buildPuzzle s) (buildPuzzle out).
Proof. intros; eapply solve_solution_sound; eassumption. Qed.

Lemma solve_sound_witness :
  puzzle_text test_puzzle /\ consistent (buildPuzzle test_puzzle)
  /\ solve (Some test_puzzle) = RSolution test_solution
  /\ solution_of (buildPuzzle test_puzzle) (buildPuzzle test_solution).
Proof.
  assert (H1 : puzzle_text test_puzzle) by decide_by_eval.
  assert (H2 : consistent (buildPuzzle test_puzzle)) by decide_by_eval.
  assert (H3 : solve (Some test_puzzle) = RSolution test_solution) by (vm_compute; reflexivity).
  split; [exact H1|split; [exact H2|split; [exact H3|exact (solve_sound _ _ H1 H2 H3)]]].
Defined.

Lemma solve_solution_exists (s : string) (sol : Grid) :
  puzzle_text s -> solution_of (buildPuzzle s) sol -> exists out, solve (Some s) = RSolution out.
Proof.
  intros Hs (Hwfs & Hfill & Hcons & Hext).
  rewrite solve_validated by (by apply validate_of_puzzle_text).
  destruct (solveLoc_true_exists check check_oracle 82 (buildPuzzle s) 0 0 sol) as [g' ->];
    auto using buildPuzzle_wf; try lia.
  eauto.
Qed.

(** C2: completeness. A valid puzzle that has a solution gets a
    [{solution: ...}] answer: the search never reports a solvable puzzle
    unsolvable. *)
Theorem solve_complete (s : string) (sol : Grid) :
  puzzle_text s -> solution_of (buildPuzzle s) sol -> exists out, solve (Some s) = RSolution out.
Proof. intros; eapply solve_solution_exists; eassumption. Qed.

Lemma solve_complete_witness :
  puzzle_text test_puzzle /\ solution_of (buildPuzzle test_puzzle) (buildPuzzle test_solution)
  /\ exists out, solve (Some test_puzzle) = RSolution out.
Proof.
  assert (H1 : puzzle_text test_puzzle) by decide_by_eval.
  assert (H2 : solution_of (buildPuzzle test_puzzle) (buildPuzzle test_solution)) by decide_by_eval.
  split; [exact H1|split; [exact H2|exact (solve_complete _ _ H1 H2)]].
Defined.

(** C3: a valid puzzle with exactly one solution gets exactly that
    solution, written back as a puzzle string. *)
Theorem solve_unique (s : string) (sol : Grid) :
  puzzle_text s -> solution_of (buildPuzzle s) sol ->
  (forall sol', solution_of (buildPuzzle s) sol' -> sol' = sol) ->
  solve (Some s) = RSolution (buildPuzzleString sol).
Proof.
  intros Hs Hsol Huniq. destruct (solve_solution_exists s sol Hs Hsol) as [out Hout].
  pose proof (solve_solution_sound s out Hs (solution_givens_consistent _ _ Hsol) Hout) as Hsol'.
  destruct (solve_result s out Hs Hout) as (g' & -> & (Hwf' & _)).
  rewrite Hout. f_equal. rewrite <- (Huniq _ Hsol'). by rewrite buildPuzzle_of_buildPuzzleString.
Qed.

(** C4: on a valid puzzle whose filled cells obey the rules, [solve]
    answers ["Puzzle cannot be solved"] exactly when the puzzle has no
    solution. *)
Theorem solve_error_iff (s : string) :
  puzzle_text s -> consistent (buildPuzzle s) ->
  solve (Some s) = RError "Puzzle cannot be solved"
  <-> ~ exists sol, solution_of (buildPuzzle s) sol.
Proof.
  intros Hs Hcons. split.
  - intros Herr [sol Hsol]. destruct (solve_solution_exists s sol Hs Hsol) as [out Hout]. congruence.
  - intros Hno. destruct (solve (Some s)) eqn:E.
    + revert E. rewrite solve_validated by (by apply validate_of_puzzle_text).
      by destruct (solveLoc check 82 (buildPuzzle s) 0 0) as [[[] g']|].
    + exfalso. apply Hno. eexists. by apply solve_solution_sound.
    + revert E. rewrite solve_validated by (by apply validate_of_puzzle_text).
      by destruct (solveLoc check 82 (buildPuzzle s) 0 0) as [[[] g']|].
    + revert E. rewrite solve_validated by (by apply validate_of_puzzle_text).
      by destruct (solveLoc check 82 (buildPuzzle s) 0 0) as [[[] g']|].
Qed.

(** A puzzle whose cells are all filled is the only array extending it. *)
Lemma extends_filled p g : grid_wf p -> grid_wf g -> filled p -> extends p g -> g = p.
Proof.
  intros Hp Hg Hf Hext. apply grid_ext; try apply Hg; try apply Hp; eauto using grid_wf_rows.
  intros i j Hi Hj. specialize (Hf i j Hi Hj). specialize (Hext i j Hi Hj).
  unfold filled_cell, keeps_cell in *. destruct (nth2 p i j) as [[z|]|]; try done. apply Hext. lia.
Qed.

Lemma solve_unique_witness :
  let s := test_solution in
  puzzle_text s /\ solution_of (buildPuzzle s) (buildPuzzle s)
  /\ solve (Some s) = RSolution (buildPuzzleString (buildPuzzle s)).
Proof.
  assert (H1 : puzzle_text test_solution) by decide_by_eval.
  assert (H2 : solution_of (buildPuzzle test_solution) (buildPuzzle test_solution)) by decide_by_eval.
  split; [exact H1|split; [exact H2|]]. apply (solve_unique _ _ H1 H2).
  intros sol' (Hwf' & _ & _ & Hext). apply extends_filled; auto; apply H2.
Defined.

Lemma solve_error_iff_witness :
  puzzle_text test_puzzle /\ consistent (buildPuzzle test_puzzle)
  /\ (solve (Some test_puzzle) = RError "Puzzle cannot be solved"
      <-> ~ exists sol, solution_of (buildPuzzle test_puzzle) sol).
Proof.
  assert (H1 : puzzle_text test_puzzle) by decide_by_eval.
  assert (H2 : consistent (buildPuzzle test_puzzle)) by decide_by_eval.
  split; [exact H1|split; [exact H2|exact (solve_error_iff _ H1 H2)]].
Defined.

(** On an array whose remaining cells are all filled, the search walks to
    the end without testing anything and returns the array unchanged. *)
Lemma solveLoc_all_filled chk fuel g row col :
  grid_wf g -> row <= 8 -> col <= 9 -> 82 - pos row col <= fuel ->
  (forall r c, r < 9 -> c < 9 -> pos row col <= pos r c -> cell_gt0 (nth2 g r c) = true) ->
  solveLoc chk fuel g row col = Some (true, g).
Proof.
  revert row col; induction fuel as [|fuel IH]; intros row col Hwf Hr Hc Hf Hfull.
  { unfold pos in Hf. lia. }
  destruct (decide (row = 8 /\ col = 9)) as [[-> ->]|Hend]; [done|].
  destruct (solveLoc_step chk fuel g row col) as (r & c & Hr' & Hc' & Hp & ->); auto.
  rewrite Hfull by (auto; lia). apply IH; auto; unfold pos in *; try lia.
  intros r' c' ? ? ?. apply Hfull; auto. unfold pos. lia.
Qed.

(** C24: a valid puzzle with no empty cell is returned as its own solution,
    whether or not its cells obey the rules: the search never checks
    filled cells. *)
Theorem solve_filled_unchanged (s : string) :
  puzzle_text s -> Forall (fun c => c <> "0"%char /\ c <> "."%char) (list_ascii_of_string s) ->
  solve (Some s) = RSolution s.
Proof.
  intros Hs Hfull. rewrite solve_validated by (by apply validate_of_puzzle_text).
  rewrite solveLoc_all_filled; auto using buildPuzzle_wf; try lia.
  - f_equal. apply encode_decode_nozero; [done|]. eapply Forall_impl; [exact Hfull|]. naive_solver.
  - intros r c Hr Hc _. rewrite nth2_buildPuzzle by done. destruct Hs as [Hlen Hchars].
    rewrite string_get_list.
    destruct (lookup_lt_is_Some_2 (list_ascii_of_string s) (9 * r + c)) as [ch Hch];
      [rewrite <- string_length_list; lia|].
    rewrite Hch. destruct (Forall_lookup_1 _ _ _ _ Hfull Hch) as [H0 Hd].
    destruct (cell_of_char_pos ch) as (z & -> & Hz); [exact (Forall_lookup_1 _ _ _ _ Hchars Hch)|done|done|].
    simpl. apply Z.ltb_lt. lia.
Qed.

Lemma solve_filled_unchanged_witness :
  let s := "111111111111111111111111111111111111111111111111111111111111111111111111111111111"%string in
  puzzle_text s /\ Forall (fun c => c <> "0"%char /\ c <> "."%char) (list_ascii_of_string s)
  /\ solve (Some s) = RSolution s.
Proof.
  assert (H1 : puzzle_text "111111111111111111111111111111111111111111111111111111111111111111111111111111111"%string) by decide_by_eval.
  assert (H2 : Forall (fun c => c <> "0"%char /\ c <> "."%char) (list_ascii_of_string "111111111111111111111111111111111111111111111111111111111111111111111111111111111"%string))
    by decide_by_eval.
  split; [exact H1|split; [exact H2|exact (solve_filled_unchanged _ H1 H2)]].
Defined.


