(* ===== verification/Search.v ===== *)
(** * Search: a reference search and the order of the solutions

    The specification of the solver (section 4.4 of the spec) describes a
    search over the cells in row-major order that tries the candidates 1
    to 9 in ascending order and backtracks.  [ref_search] is that search
    written as a pure function: structural recursion over the list of the
    cells still to visit, the rules' own test [unit_free] in place of the
    program's [check], and no array to restore, since nothing is mutated.

    [solveLoc_ref] shows the program's [solveLoc] (in-place writes, resets
    after failed candidates, the column-9 wrap, fuel) computes exactly the
    reference search, for any placement test that meets [placement_oracle];
    [solve_ref] lifts this to [solve].  On the reference the order of the
    answers is easy to reason about: [solve] returns the lexicographically
    first solution in row-major order ([solve_lex_first]), the
    determinism the spec promises for puzzles with several solutions. *)

From Stdlib Require Import ZArith String.
From stdpp Require Import base list.
From S2P Require Import Prelude Codec Validator Rules Placement Solver.

(** The first [Some] that [f] gives along [l]. *)
Fixpoint first_some {A B} (f : A -> option B) (l : list A) : option B :=
  match l with
  | [] => None
  | x :: l' => match f x with Some y => Some y | None => first_some f l' end
  end.

(** The cells from step [p] on, in the solver's row-major order. *)
Definition cells_from (p : nat) : list (nat * nat) :=
  (fun q => (q / 9, q mod 9)) <$> seq p (81 - p).

(** Try [v] at the empty cell [(r, c)]: when no cell of its units holds
    it, place it and continue with [next]. *)
Definition place_next (next : Grid -> option Grid) (g : Grid) (r c v : nat) : option Grid :=
  if bool_decide (unit_free g r c (Z.of_nat v)) then next (set2 g r c (Num (Z.of_nat v)))
  else None.

(** The reference search: visit [cells] in order, skip a filled cell, and
    at an empty one take the first candidate from 1 to 9 whose placement
    leads to a complete array. *)
Fixpoint ref_search (cells : list (nat * nat)) (g : Grid) : option Grid :=
  match cells with
  | [] => Some g
  | (r, c) :: rest =>
      if cell_gt0 (nth2 g r c) then ref_search rest g
      else first_some (place_next (ref_search rest) g r c) (seq 1 9)
  end.

(** Every cell of the list is on the board. *)
Definition on_board (cells : list (nat * nat)) : Prop :=
  Forall (fun '(r, c) => r < 9 /\ c < 9) cells.

(** What [solveLoc] returns when the reference search gives [o] on [g]. *)
Definition outcome (o : option Grid) (g : Grid) : bool * Grid :=
  match o with Some s => (true, s) | None => (false, g) end.

(** The test solution with the four cells at rows 6 and 7, columns 3
    and 7 emptied, and the second solution it has: the test solution with
    the 2 and 6 of those cells swapped. *)
Definition two_solution_puzzle : string :=
  "135762984946381257728459613694517832812936745357824196473.985.1581.734.9269145378"%string.

Definition swapped_solution : string :=
  "135762984946381257728459613694517832812936745357824196473698521581273469269145378"%string.

(** [s] is lexicographically at most [t] along [cells]: at the first
    cell where they differ, [s] holds the smaller value. *)
Fixpoint lex_leb (cells : list (nat * nat)) (s t : Grid) : bool :=
  match cells with
  | [] => true
  | (r, c) :: rest =>
      match nth2 s r c, nth2 t r c with
      | Some (Num z), Some (Num z') => (z <? z')%Z || ((z =? z')%Z && lex_leb rest s t)
      | _, _ => false
      end
  end.

(** ** Lists of candidates and of cells *)

Lemma first_some_None {A B} (f : A -> option B) l :
  first_some f l = None <-> Forall (fun x => f x = None) l.
Proof.
  induction l as [|x l IH]; simpl; [split; auto|].
  rewrite Forall_cons. destruct (f x); [split; [done|naive_solver]|]. rewrite IH. naive_solver.
Qed.

(** The first success along [seq a n] is at some [v], every candidate
    below [v] failing. *)
Lemma first_some_seq {B} (f : nat -> option B) a n y :
  first_some f (seq a n) = Some y ->
  exists v, a <= v < a + n /\ f v = Some y /\ forall u, a <= u < v -> f u = None.
Proof.
  revert a; induction n as [|n IH]; intros a; simpl; [done|].
  destruct (f a) as [y'|] eqn:E.
  - intros [= <-]. exists a. split; [lia|split; [done|lia]].
  - intros (v & Hv & Hf & Hbelow)%IH. exists v. split; [lia|split; [done|]].
    intros u Hu. destruct (decide (u = a)) as [->|]; [done|]. apply Hbelow. lia.
Qed.

Lemma cells_from_pos r c :
  r < 9 -> c < 9 -> cells_from (pos r c) = (r, c) :: cells_from (pos r (S c)).
Proof.
  intros Hr Hc. unfold cells_from.
  replace (81 - pos r c) with (S (81 - pos r (S c))) by (unfold pos; lia).
  cbn [seq fmap list_fmap]. f_equal; [|do 2 f_equal; unfold pos; lia].
  unfold pos. rewrite (Nat.mul_comm 9 r). f_equal.
  - rewrite Nat.div_add_l by lia. rewrite Nat.div_small; lia.
  - rewrite Nat.add_comm, Nat.Div0.mod_add. apply Nat.mod_small; lia.
Qed.

Lemma cells_from_end : cells_from (pos 8 9) = [].
Proof. reflexivity. Qed.

(** Every cell of [cells_from p] is on the board. *)
Lemma cells_from_board p : on_board (cells_from p).
Proof.
  unfold cells_from. apply Forall_fmap, Forall_forall. intros q Hq%elem_of_seq.
  change (q / 9 < 9 /\ q mod 9 < 9). split; [apply Nat.Div0.div_lt_upper_bound; lia | apply Nat.mod_upper_bound; lia].
Qed.

(** ** The program's search computes the reference search *)

Section Equivalence.
Context (check : Grid -> nat -> nat -> Z -> bool) (check_ok : placement_oracle check).

(** On an empty cell, [check] is the rules' test [unit_free]. *)
Lemma check_empty_iff g r c (k : nat) :
  grid_wf g -> r < 9 -> c < 9 -> nth2 g r c = Some (Num 0) -> 1 <= k ->
  check g r c (Z.of_nat k) = bool_decide (unit_free g r c (Z.of_nat k)).
Proof.
  intros Hwf Hr Hc H0 Hk. apply eq_bool_prop_intro. rewrite Is_true_true, bool_decide_spec.
  rewrite (check_ok g r c (Z.of_nat k) Hwf Hr Hc), H0. split; [intros [[= ?]|]; [lia|done] | by right].
Qed.

(** The candidate loop: while [solve_next] computes the reference search
    of the remaining cells, [try_nums] computes the first candidate whose
    placement succeeds, and a failed loop hands back the array unchanged. *)
Lemma try_nums_ref solve_next rest r c nums g :
  grid_wf g -> r < 9 -> c < 9 -> nth2 g r c = Some (Num 0) -> Forall (fun k => 1 <= k <= 9) nums ->
  (forall p, grid_wf p -> solve_next p = Some (outcome (ref_search rest p) p)) ->
  try_nums check solve_next r c nums g
  = Some (outcome (first_some (place_next (ref_search rest) g r c) nums) g).
Proof.
  intros Hwf Hr Hc H0 Hnums Hnext. induction Hnums as [|k nums Hk Hnums IH]; [done|].
  cbn [try_nums first_some]. unfold place_next at 1.
  rewrite (check_empty_iff g r c k) by (done || lia).
  destruct (bool_decide _); [|by rewrite set2_id].
  rewrite Hnext by (apply set2_wf; [done|apply digit_cell_of_nat; lia]).
  destruct (ref_search rest _) as [s|]; [done|]. simpl. by rewrite set2_restore.
Qed.

Lemma solveLoc_ref_aux fuel g row col :
  grid_wf g -> row <= 8 -> col <= 9 -> 82 - pos row col <= fuel ->
  solveLoc check fuel g row col = Some (outcome (ref_search (cells_from (pos row col)) g) g).
Proof.
  revert g row col; induction fuel as [|fuel IH]; intros g row col Hwf Hr Hc Hf.
  - unfold pos in Hf. lia.
  - destruct (decide (row = 8 /\ col = 9)) as [[-> ->]|Hend]; [done|].
    destruct (solveLoc_step check fuel g row col) as (r & c & Hr' & Hc' & Hp & ->); auto.
    rewrite <- Hp in *. assert (82 - pos r (S c) <= fuel) by (unfold pos in *; lia).
    rewrite cells_from_pos by done. cbn [ref_search].
    destruct (cell_gt0 (nth2 g r c)) eqn:Hgt; [apply IH; auto; lia|].
    apply try_nums_ref; auto using cell_gt0_false.
    + apply Forall_forall. intros k ?%elem_of_seq. lia.
    + intros p Hwfp. apply IH; auto; lia.
Qed.
End Equivalence.

(** ** The reference search *)

(** Writing an empty cell keeps every filled one. *)
Lemma extends_set2_empty g r c x : nth2 g r c = Some (Num 0) -> extends g (set2 g r c x).
Proof.
  intros H0 r' c' Hr' Hc'. unfold keeps_cell.
  destruct (decide ((r', c') = (r, c))) as [[= -> ->]|Hne]; [by rewrite H0; lia|].
  rewrite nth2_set2_ne by done. by destruct (nth2 g r' c') as [[z|]|].
Qed.

#[export] Hint Resolve extends_set2_empty : sudoku.

Lemma ref_search_extends cells g s :
  on_board cells -> grid_wf g -> ref_search cells g = Some s -> grid_wf s /\ extends g s.
Proof.
  revert g; induction cells as [|[r c] rest IH]; intros g Hb Hwf; cbn [ref_search].
  - intros [= <-]. auto with sudoku.
  - apply Forall_cons in Hb as [[Hr Hc] Hb].
    destruct (cell_gt0 _) eqn:Hgt; [by apply IH|]. apply cell_gt0_false in Hgt; auto.
    intros (v & Hv & Hf & _)%first_some_seq. unfold place_next in Hf. case_bool_decide; [|done].
    apply IH in Hf as [Hwf' Hext]; [|done|apply set2_wf; auto with sudoku lia].
    split; [done|]. eapply extends_trans; [|exact Hext]. auto with sudoku.
Qed.

(** The value a solution holds at a cell, as a candidate of the loop. *)
Lemma solution_candidate sol r c :
  filled sol -> r < 9 -> c < 9 ->
  exists w : nat, nth2 sol r c = Some (Num (Z.of_nat w)) /\ 1 <= w <= 9.
Proof.
  intros Hfill Hr Hc. pose proof (Hfill r c Hr Hc) as Hw. unfold filled_cell in Hw.
  destruct (nth2 sol r c) as [[w|]|]; try done. exists (Z.to_nat w). rewrite Z2Nat.id; [split; [done|lia]|lia].
Qed.

Section Completeness.
Context (sol : Grid) (Hwfs : grid_wf sol) (Hfill : filled sol) (Hcons : consistent sol).

(** At an empty cell of [g], placing the solution's value keeps [g]
    extended by the solution, and the value is free there. *)
Lemma place_solution_value g r c w :
  grid_wf g -> extends g sol -> r < 9 -> c < 9 -> nth2 g r c = Some (Num 0) ->
  nth2 sol r c = Some (Num (Z.of_nat w)) -> 1 <= w <= 9 ->
  bool_decide (unit_free g r c (Z.of_nat w)) = true /\ grid_wf (set2 g r c (Num (Z.of_nat w)))
  /\ extends (set2 g r c (Num (Z.of_nat w))) sol.
Proof.
  intros Hwf Hext Hr Hc H0 Ew Hw. split; [apply bool_decide_eq_true; eapply unit_free_solution; eauto; lia|].
  split; [apply set2_wf; [done|apply digit_cell_of_nat; lia] | by apply extends_set2].
Qed.

(** The reference search finds a completion whenever the solution
    extends the array. *)
Lemma ref_search_complete cells g :
  on_board cells -> grid_wf g -> extends g sol -> is_Some (ref_search cells g).
Proof.
  revert g; induction cells as [|[r c] rest IH]; intros g Hb Hwf Hext; cbn [ref_search]; [by eexists|].
  apply Forall_cons in Hb as [[Hr Hc] Hb].
  destruct (cell_gt0 _) eqn:Hgt; [by apply IH|]. apply cell_gt0_false in Hgt; auto.
  destruct (solution_candidate sol r c) as (w & Ew & Hw); auto.
  destruct (place_solution_value g r c w) as (Hfree & Hwf1 & Hext1); auto.
  destruct (first_some _ _) eqn:E; [by eexists|]. exfalso.
  rewrite first_some_None, Forall_forall in E. specialize (E w). unfold place_next in E.
  rewrite Hfree in E. destruct (IH _ Hb Hwf1 Hext1) as [s Hs]. rewrite Hs in E.
  assert (Some s = None) by (apply E, elem_of_seq; lia). done.
Qed.

(** The completion the reference search finds is lexicographically at
    most the solution: at the first cell where they differ, the search
    holds the smaller value, since every smaller candidate failed. *)
Lemma ref_search_least cells g s :
  on_board cells -> grid_wf g -> extends g sol -> ref_search cells g = Some s -> lex_leb cells s sol = true.
Proof.
  revert g; induction cells as [|[r c] rest IH]; intros g Hb Hwf Hext; cbn [ref_search lex_leb]; [done|].
  intros Hs. pose proof Hb as Hb'. apply Forall_cons in Hb' as [[Hr Hc] Hrest].
  destruct (ref_search_extends _ g s Hb Hwf) as [_ Hexts]; [by cbn [ref_search]|].
  destruct (solution_candidate sol r c) as (w & Ew & Hw); auto. rewrite Ew.
  destruct (cell_gt0 _) eqn:Hgt.
  - destruct (cell_gt0_true g r c) as (z & Ez & Hz); auto.
    pose proof (Hexts r c Hr Hc) as Es. pose proof (Hext r c Hr Hc) as Ew'.
    unfold keeps_cell in Es, Ew'. rewrite Ez in Es, Ew'.
    rewrite Ew' in Ew by lia. injection Ew as ->. rewrite Es by lia.
    rewrite Z.ltb_irrefl, Z.eqb_refl. simpl. eapply IH; eauto.
  - apply cell_gt0_false in Hgt; auto.
    apply first_some_seq in Hs as (v & Hv & Hf & Hbelow). unfold place_next in Hf.
    case_bool_decide as Hfree; [|done].
    destruct (ref_search_extends _ _ s Hrest (set2_wf g r c _ Hwf (digit_cell_of_nat v ltac:(lia))) Hf)
      as [_ Hext1].
    pose proof (Hext1 r c Hr Hc) as Es. unfold keeps_cell in Es.
    rewrite nth2_set2_eq in Es by done. rewrite Es by lia.
    destruct (Nat.lt_trichotomy v w) as [Hlt|[<-|Hlt]].
    + apply orb_true_intro. left. apply Z.ltb_lt. lia.
    + rewrite Z.ltb_irrefl, Z.eqb_refl. simpl.
      apply (IH (set2 g r c (Num (Z.of_nat v)))); [exact Hrest | apply set2_wf; auto with sudoku lia | apply extends_set2; auto | exact Hf].
    + exfalso. destruct (place_solution_value g r c w) as (Hfw & Hwf1 & Hext1'); auto.
      destruct (ref_search_complete rest _ Hrest Hwf1 Hext1') as [s' Hs'].
      specialize (Hbelow w ltac:(lia)). unfold place_next in Hbelow. rewrite Hfw, Hs' in Hbelow. done.
Qed.
End Completeness.

(** ** The program's answers are the reference search's *)

Lemma solveLoc_check_ref g :
  grid_wf g -> solveLoc check 82 g 0 0 = Some (outcome (ref_search (cells_from 0) g) g).
Proof. intros Hwf. apply (solveLoc_ref_aux check check_oracle); auto; vm_compute; lia. Qed.

Lemma solve_ref_aux s :
  puzzle_text s ->
  solve (Some s) = match ref_search (cells_from 0) (buildPuzzle s) with
                   | Some g => RSolution (buildPuzzleString g)
                   | None => RError "Puzzle cannot be solved"
                   end.
Proof.
  intros Hs. rewrite solve_validated by (by apply validate_of_puzzle_text).
  rewrite solveLoc_check_ref by (by apply buildPuzzle_wf). by destruct (ref_search _ _).
Qed.

(** C11: equivalence of the in-place search with the reference search.
    For any placement test meeting [placement_oracle], [solveLoc] started
    at [(row, col)] with enough fuel returns [true] and the reference
    search's array when the reference search succeeds on the cells from
    [(row, col)] on, and [false] with the array it was given otherwise:
    the writes, the resets after failed candidates and the wrap at column 9
    compute exactly the pure search. *)
Theorem solveLoc_ref (chk : Grid -> nat -> nat -> Z -> bool) fuel g row col :
  placement_oracle chk -> grid_wf g -> row <= 8 -> col <= 9 -> 82 - pos row col <= fuel ->
  solveLoc chk fuel g row col = Some (outcome (ref_search (cells_from (pos row col)) g) g).
Proof. intros Hchk. by apply solveLoc_ref_aux. Qed.

Lemma solveLoc_ref_witness :
  placement_oracle check /\ grid_wf (buildPuzzle test_puzzle) /\ 0 <= 8 /\ 0 <= 9 /\ 82 - pos 0 0 <= 82 /\
  solveLoc check 82 (buildPuzzle test_puzzle) 0 0
  = Some (outcome (ref_search (cells_from (pos 0 0)) (buildPuzzle test_puzzle)) (buildPuzzle test_puzzle)).
Proof.
  assert (Hwf : grid_wf (buildPuzzle test_puzzle)) by decide_by_eval.
  split; [exact check_oracle|split; [exact Hwf|]]. split; [lia|split; [lia|split; [vm_compute; lia|]]].
  apply (solveLoc_ref check 82 _ 0 0 check_oracle Hwf); vm_compute; lia.
Defined.

(** C10: [solve] on a puzzle of the spec's alphabet answers with the
    encoded result of the reference search over all 81 cells, and with
    ["Puzzle cannot be solved"] when the reference search fails. *)
Theorem solve_ref s :
  puzzle_text s ->
  solve (Some s) = match ref_search (cells_from 0) (buildPuzzle s) with
                   | Some g => RSolution (buildPuzzleString g)
                   | None => RError "Puzzle cannot be solved"
                   end.
Proof. intros Hs. by apply solve_ref_aux. Qed.

Lemma solve_ref_witness :
  puzzle_text test_puzzle /\
  solve (Some test_puzzle) = match ref_search (cells_from 0) (buildPuzzle test_puzzle) with
                             | Some g => RSolution (buildPuzzleString g)
                             | None => RError "Puzzle cannot be solved"
                             end.
Proof.
  assert (Hs : puzzle_text test_puzzle) by decide_by_eval.
  split; [exact Hs | exact (solve_ref test_puzzle Hs)].
Defined.

(** C9: determinism (spec section 4.4).  When a puzzle has several
    solutions, the one [solve] answers is the lexicographically first in
    row-major order: compared with any solution of the puzzle, at the
    first cell where the two differ the answer holds the smaller value. *)
Theorem solve_lex_first s sol out :
  puzzle_text s -> solution_of (buildPuzzle s) sol -> solve (Some s) = RSolution out ->
  lex_leb (cells_from 0) (buildPuzzle out) sol = true.
Proof.
  intros Hs (Hwfs & Hfill & Hcons & Hext). rewrite solve_ref_aux by done.
  destruct (ref_search _ _) as [g|] eqn:E; [|done]. intros [= <-].
  destruct (ref_search_extends _ _ _ (cells_from_board 0) (buildPuzzle_wf s Hs) E) as [Hwf _].
  rewrite buildPuzzle_of_buildPuzzleString by done.
  eapply (ref_search_least sol) with (g := buildPuzzle s); eauto using cells_from_board, buildPuzzle_wf.
Qed.

(** The test solution with two digits swapped in rows 6 and 7 (columns 3
    and 7) is a second solution of the test solution with those four cells
    emptied; [solve] answers the first of the two, whose row 6 starts
    [4 7 3 2] rather than [4 7 3 6]. *)
Lemma solve_lex_first_witness :
  puzzle_text two_solution_puzzle
  /\ solution_of (buildPuzzle two_solution_puzzle)
       (buildPuzzle swapped_solution)
  /\ solve (Some two_solution_puzzle)
     = RSolution test_solution
  /\ lex_leb (cells_from 0) (buildPuzzle test_solution)
       (buildPuzzle swapped_solution) = true.
Proof.
  assert (Hs : puzzle_text two_solution_puzzle)
    by decide_by_eval.
  assert (Hsol : solution_of (buildPuzzle two_solution_puzzle)
       (buildPuzzle swapped_solution))
    by decide_by_eval.
  assert (Hout : solve (Some two_solution_puzzle)
     = RSolution test_solution) by (vm_compute; reflexivity).
  split; [exact Hs|split; [exact Hsol|split; [exact Hout|]]].
  exact (solve_lex_first _ _ _ Hs Hsol Hout).
Defined.

