(* ===== verification/Machine.v ===== *)
(** * Machine: the solver as the state machine of the spec

    Section 4.4 of the spec describes the solver as a state machine over
    the 81 positions in row-major order: at an empty cell the candidates 1
    to 9 are tried in ascending order, a placed candidate moves the machine
    to the next position, and when every candidate of a cell is exhausted
    the machine backtracks to the last cell it placed a value in; section 9
    allows the recursion to be written as such an explicit stack.  This
    file models that machine: [step] is its transition relation (an
    inductive, one rule per transition of the spec), [mstep] the same
    transition as a function, and [run] iterates it.

    - [Run g p st]: at position [p] with array [g] and the stack [st] of
      the cells placed so far (position and value, last on top);
    - [Try g p v st]: at the empty cell [p], about to test candidate [v];
    - [Back g st]: backtracking, about to pop the last placed cell;
    - [Done g] and [Fail]: success with [g], and failure.

    The theorems: [step] and [mstep] agree, so the machine is
    deterministic; from a well-formed array the machine reaches exactly
    the halted state the reference search of [Search] predicts; and so
    [solve] answers a solution exactly when the machine halts in [Done]
    with it, and the error exactly when it halts in [Fail]
    ([solve_machine]). *)

From Stdlib Require Import ZArith String.
From stdpp Require Import base list relations.
From S2P Require Import Prelude Codec Validator Rules Placement Solver Search.

(** The cell at position [p] of the row-major order. *)
Definition row_of (p : nat) : nat := p / 9.
Definition col_of (p : nat) : nat := p mod 9.

Inductive mstate : Type :=
| Run (g : Grid) (p : nat) (stack : list (nat * nat))
| Try (g : Grid) (p v : nat) (stack : list (nat * nat))
| Back (g : Grid) (stack : list (nat * nat))
| Done (g : Grid)
| Fail.

(** The transitions of spec section 4.4. *)
Inductive step : mstate -> mstate -> Prop :=
| step_done g st :
    step (Run g 81 st) (Done g)
| step_skip g p st :
    p < 81 -> cell_gt0 (nth2 g (row_of p) (col_of p)) = true ->
    step (Run g p st) (Run g (S p) st)
| step_enter g p st :
    p < 81 -> cell_gt0 (nth2 g (row_of p) (col_of p)) = false ->
    step (Run g p st) (Try g p 1 st)
| step_place g p v st :
    v <= 9 -> unit_free g (row_of p) (col_of p) (Z.of_nat v) ->
    step (Try g p v st) (Run (set2 g (row_of p) (col_of p) (Num (Z.of_nat v))) (S p) ((p, v) :: st))
| step_reject g p v st :
    v <= 9 -> ~ unit_free g (row_of p) (col_of p) (Z.of_nat v) ->
    step (Try g p v st) (Try g p (S v) st)
| step_exhausted g p st :
    step (Try g p 10 st) (Back g st)
| step_pop g p v st :
    step (Back g ((p, v) :: st)) (Try (set2 g (row_of p) (col_of p) (Num 0)) p (S v) st)
| step_fail g :
    step (Back g []) Fail.

(** The transition as a function: [None] when no rule applies. *)
Definition mstep (s : mstate) : option mstate :=
  match s with
  | Run g p st =>
      if p =? 81 then Some (Done g)
      else if p <? 81 then
        if cell_gt0 (nth2 g (row_of p) (col_of p)) then Some (Run g (S p) st) else Some (Try g p 1 st)
      else None
  | Try g p v st =>
      if v =? 10 then Some (Back g st)
      else if v <=? 9 then
        if bool_decide (unit_free g (row_of p) (col_of p) (Z.of_nat v))
        then Some (Run (set2 g (row_of p) (col_of p) (Num (Z.of_nat v))) (S p) ((p, v) :: st))
        else Some (Try g p (S v) st)
      else None
  | Back g ((p, v) :: st) => Some (Try (set2 g (row_of p) (col_of p) (Num 0)) p (S v) st)
  | Back g [] => Some Fail
  | Done _ | Fail => None
  end.

(** [fuel] transitions at most. *)
Fixpoint run (fuel : nat) (s : mstate) : mstate :=
  match fuel with
  | 0 => s
  | S fuel' => match mstep s with Some t => run fuel' t | None => s end
  end.

Definition halted (s : mstate) : Prop :=
  match s with Done _ | Fail => True | _ => False end.


(** Where the machine stands after the cells from [p] on, by the outcome
    [o] of the reference search on them. *)
Definition after (o : option Grid) (g : Grid) (st : list (nat * nat)) : mstate :=
  match o with Some s => Done s | None => Back g st end.





(** ** The transition function *)

Lemma step_mstep s t : step s t <-> mstep s = Some t.
Proof.
  split.
  - destruct 1; cbn [mstep]; try reflexivity.
    + rewrite (proj2 (Nat.eqb_neq p 81)) by lia. rewrite (proj2 (Nat.ltb_lt p 81)) by done.
      by rewrite H0.
    + rewrite (proj2 (Nat.eqb_neq p 81)) by lia. rewrite (proj2 (Nat.ltb_lt p 81)) by done.
      by rewrite H0.
    + rewrite (proj2 (Nat.eqb_neq v 10)) by lia. rewrite (proj2 (Nat.leb_le v 9)) by done.
      by rewrite bool_decide_true.
    + rewrite (proj2 (Nat.eqb_neq v 10)) by lia. rewrite (proj2 (Nat.leb_le v 9)) by done.
      by rewrite bool_decide_false.
  - destruct s as [g p st|g p v st|g [|[p v] st]|g|]; cbn [mstep]; try discriminate.
    + destruct (Nat.eqb_spec p 81) as [->|Hp]; [intros [= <-]; constructor|].
      destruct (Nat.ltb_spec p 81); [|discriminate].
      destruct (cell_gt0 _) eqn:E; intros [= <-]; by constructor.
    + destruct (Nat.eqb_spec v 10) as [->|Hv]; [intros [= <-]; constructor|].
      destruct (Nat.leb_spec v 9); [|discriminate].
      case_bool_decide; intros [= <-]; by constructor.
    + intros [= <-]. constructor.
    + intros [= <-]. constructor.
Qed.

Lemma step_det s t1 t2 : step s t1 -> step s t2 -> t1 = t2.
Proof. rewrite !step_mstep. congruence. Qed.

Lemma halted_irred s t : halted s -> ~ step s t.
Proof. rewrite step_mstep. by destruct s. Qed.

(** [run] follows the transitions. *)
Lemma run_rtc fuel s : rtc step s (run fuel s).
Proof.
  revert s; induction fuel as [|fuel IH]; intros s; cbn [run]; [done|].
  destruct (mstep s) as [t|] eqn:E; [|done]. eapply rtc_l; [by apply step_mstep | apply IH].
Qed.

(** A deterministic run that reaches a halted state is the only run. *)
Lemma rtc_halted_unique s t1 t2 :
  rtc step s t1 -> rtc step s t2 -> halted t1 -> halted t2 -> t1 = t2.
Proof.
  intros H1. revert t2. induction H1 as [s|s y t1 Hsy Hy IH]; intros t2 H2 Ht1 Ht2.
  - inversion H2 as [|? y' ? Hs]; subst; [done|]. exfalso. exact (halted_irred _ _ Ht1 Hs).
  - inversion H2 as [|? y' ? Hsy' Hy']; subst; [exfalso; exact (halted_irred _ _ Ht2 Hsy)|].
    rewrite (step_det _ _ _ Hsy' Hsy) in Hy'. by apply IH.
Qed.


(** ** The machine computes the reference search *)

Lemma cells_from_cons p : p < 81 -> cells_from p = (row_of p, col_of p) :: cells_from (S p).
Proof.
  intros Hp. unfold cells_from. replace (81 - p) with (S (80 - p)) by lia. reflexivity.
Qed.

Lemma row_col_board p : p < 81 -> row_of p < 9 /\ col_of p < 9.
Proof.
  intros Hp. unfold row_of, col_of.
  split; [apply Nat.Div0.div_lt_upper_bound; lia | apply Nat.mod_upper_bound; lia].
Qed.

Section Position.
Context (p : nat) (Hp : p < 81).

(** The candidate loop at the empty cell [p]: from candidate [v] on, the
    machine reaches [Done] with the first successful completion, or backs
    out of [p] with the array it entered with. *)
Lemma try_after g st :
  (forall g' st', grid_wf g' ->
     rtc step (Run g' (S p) st') (after (ref_search (cells_from (S p)) g') g' st')) ->
  grid_wf g -> nth2 g (row_of p) (col_of p) = Some (Num 0) ->
  forall k v, v + k = 10 -> 1 <= v ->
  rtc step (Try g p v st)
    (after (first_some (place_next (ref_search (cells_from (S p))) g (row_of p) (col_of p)) (seq v k)) g st).
Proof.
  intros IH Hwf H0 k. destruct (row_col_board p Hp) as [Hr Hc].
  induction k as [|k IHk]; intros v Hvk Hv.
  - replace v with 10 by lia. apply rtc_once. constructor.
  - cbn [seq first_some]. unfold place_next at 1.
    case_bool_decide as Hfree; [|eapply rtc_l; [apply step_reject; [lia|done] | apply IHk; lia]].
    set (g1 := set2 g (row_of p) (col_of p) (Num (Z.of_nat v))).
    assert (Hwf1 : grid_wf g1) by (apply set2_wf; [done|apply digit_cell_of_nat; lia]).
    eapply rtc_l; [apply step_place; [lia|done]|].
    specialize (IH g1 ((p, v) :: st) Hwf1).
    destruct (ref_search (cells_from (S p)) g1) as [s|]; [exact IH|].
    etrans; [exact IH|]. eapply rtc_l; [constructor|].
    unfold g1. rewrite set2_restore by done. apply IHk; lia.
Qed.
End Position.

(** From position [p], the machine reaches [Done] with what the reference
    search finds on the cells from [p] on, or backs out with the array it
    was given. *)
Lemma run_after n : forall p g st, p + n = 81 -> grid_wf g ->
  rtc step (Run g p st) (after (ref_search (cells_from p) g) g st).
Proof.
  induction n as [|n IH]; intros p g st Hpn Hwf.
  - replace p with 81 by lia. apply rtc_once. constructor.
  - assert (Hp : p < 81) by lia. destruct (row_col_board p Hp) as [Hr Hc].
    rewrite (cells_from_cons p Hp). cbn [ref_search].
    destruct (cell_gt0 _) eqn:Hgt; [eapply rtc_l; [by apply step_skip | apply IH; [lia|done]]|].
    eapply rtc_l; [by apply step_enter|]. apply try_after; auto using cell_gt0_false.
    intros g' st' Hwf'. apply IH; [lia|done].
Qed.

(** From the initial state, the machine halts in [Done] with the reference
    search's array, or in [Fail]. *)
Lemma machine_ref g :
  grid_wf g ->
  rtc step (Run g 0 []) (match ref_search (cells_from 0) g with Some s => Done s | None => Fail end).
Proof.
  intros Hwf. etrans; [apply (run_after 81); auto|].
  destruct (ref_search _ _); [done|]. apply rtc_once. constructor.
Qed.


(** ** The machine and [solve] *)

(** C16: refinement of the spec's machine.  On a puzzle of the spec's
    alphabet, [solve] answers [{solution: out}] exactly when the machine
    started on the decoded array halts in [Done g] with [out] the encoding
    of [g], and ["Puzzle cannot be solved"] exactly when it halts in
    [Fail]. *)
Theorem solve_machine s :
  puzzle_text s ->
  (forall out, solve (Some s) = RSolution out <->
     exists g, rtc step (Run (buildPuzzle s) 0 []) (Done g) /\ out = buildPuzzleString g)
  /\ (solve (Some s) = RError "Puzzle cannot be solved" <-> rtc step (Run (buildPuzzle s) 0 []) Fail).
Proof.
  intros Hs. pose proof (machine_ref _ (buildPuzzle_wf s Hs)) as Hrun.
  rewrite solve_ref_aux by done.
  destruct (ref_search _ _) as [g'|]; split.
  - intros out. split; [intros [= <-]; eauto|].
    intros (g & Hg & ->). by injection (rtc_halted_unique _ _ _ Hg Hrun I I) as ->.
  - split; [done|]. intros Hf. discriminate (rtc_halted_unique _ _ _ Hf Hrun I I).
  - intros out. split; [done|]. intros (g & Hg & _). discriminate (rtc_halted_unique _ _ _ Hg Hrun I I).
  - split; [done|]. by intros _.
Qed.

Lemma solve_machine_witness :
  puzzle_text test_puzzle /\
  ((forall out, solve (Some test_puzzle) = RSolution out <->
     exists g, rtc step (Run (buildPuzzle test_puzzle) 0 []) (Done g) /\ out = buildPuzzleString g)
   /\ (solve (Some test_puzzle) = RError "Puzzle cannot be solved"
       <-> rtc step (Run (buildPuzzle test_puzzle) 0 []) Fail)).
Proof.
  assert (Hs : puzzle_text test_puzzle) by decide_by_eval.
  split; [exact Hs | exact (solve_machine _ Hs)].
Defined.
