(* ===== verification/CheckApi.v ===== *)
(** * CheckApi: [SudokuSolver.checkStr]

    Models [checkStr] of [src/controllers/sudoku-solver.js] (lines 76-96):
    the missing-field test, [validate], the coordinate test (a row letter
    found by [indexOf] in ["abcdefghi"] after [toLowerCase], a column from
    [parseInt] of the second character less one), the value test, the
    self-match shortcut, and the three scans, whose failures are pushed on
    [failList] in the order row, column, region.

    [isNaN] is true of a one-character string unless it is a digit or white
    space ([ToNumber] trims white space to the empty string, which is 0),
    while [parseInt] of a white-space character is NaN, and NaN fails both
    [< 0] and [> 8].  So a coordinate whose second character is a space
    passes the coordinate test with column NaN, and the value [" "] passes
    the value test with value NaN; the theorems give the answers in both
    cases. *)

From Stdlib Require Import ZArith String Ascii.
From stdpp Require Import base list strings.
From S2P Require Import Prelude Codec Validator Rules Placement.

(** [coord[0].toLowerCase()] looked up in ["abcdefghi"].  [coord] has two
    characters when this runs, so [coord[0]] exists (JavaScript would throw
    on [undefined.toLowerCase()]). *)
Definition coord_row (coord : string) : Z :=
  match String.get 0 coord with
  | Some a => index_of "abcdefghi" (to_lower a)
  | None => -1
  end.

(** [parseInt(coord[1]) - 1]. *)
Definition coord_col (coord : string) : JsNum := js_pred (parseInt_char (String.get 1 coord)).

(** [valStr.length !== 1 || isNaN(valStr) || parseInt(valStr) < 1 || parseInt(valStr) > 9]:
    [isNaN] and [parseInt] only run on a one-character [valStr]. *)
Definition invalid_value (valStr : string) : bool :=
  negb (String.length valStr =? 1)%nat
  || isNaN_char (String.get 0 valStr)
  || js_lt (parseInt_char (String.get 0 valStr)) 1
  || js_gt (parseInt_char (String.get 0 valStr)) 9.

Definition checkStr (puzzleStr coord valStr : option string) : Response :=
  if js_falsy coord || js_falsy valStr || js_falsy puzzleStr then RError "Required field(s) missing" else
  match validate puzzleStr with
  | Some validateError => validateError
  | None =>
    let puzzleStr := default ""%string puzzleStr in
    let coord := default ""%string coord in
    let valStr := default ""%string valStr in
    if isNaN_char (String.get 1 coord) || negb (String.length coord =? 2)%nat then RError "Invalid coordinate" else
    let coordRow := coord_row coord in
    let coordCol := coord_col coord in
    if (coordRow <? 0)%Z || (8 <? coordRow)%Z || js_lt coordCol 0 || js_gt coordCol 8
    then RError "Invalid coordinate" else
    if invalid_value valStr then RError "Invalid value" else
    let value := parseInt_char (String.get 0 valStr) in
    if cell_at (buildPuzzle puzzleStr) (Num coordRow) coordCol === value then RValid else
    let failList : list string := [] in
    let failList := if checkRowPlacement puzzleStr (Num coordRow) coordCol value then failList else failList ++ ["row"] in
    let failList := if checkColPlacement puzzleStr (Num coordRow) coordCol value then failList else failList ++ ["column"] in
    let failList := if checkRegionPlacement puzzleStr (Num coordRow) coordCol value then failList else failList ++ ["region"] in
    if negb (length failList =? 0)%nat then RInvalid failList else RValid
  end.

(** The two coordinate tests of [checkStr] (lines 80 and 83) together. *)
Definition coord_rejected (coord : string) : bool :=
  isNaN_char (String.get 1 coord) || negb (String.length coord =? 2)%nat
  || (coord_row coord <? 0)%Z || (8 <? coord_row coord)%Z
  || js_lt (coord_col coord) 0 || js_gt (coord_col coord) 8.

(** ** The requests the code accepts, and its answers *)

(** A coordinate that passes the coordinate test: two characters, a row
    letter [a] to [i] in either case, then a digit [1] to [9] or a
    white-space character. *)
Definition coordinate_ok (coord : string) : Prop :=
  exists a b, coord = String a (String b EmptyString)
    /\ (exists r, r < 9 /\ to_lower a = ascii_of_nat (97 + r))
    /\ ((exists d, 1 <= d <= 9 /\ b = ascii_of_nat (48 + d)) \/ is_js_space b = true).

(** A value that passes the value test: one digit [1] to [9] or one
    white-space character. *)
Definition value_ok (valStr : string) : Prop :=
  exists b, valStr = String b EmptyString
    /\ ((exists d, 1 <= d <= 9 /\ b = ascii_of_nat (48 + d)) \/ is_js_space b = true).

(** The units of [(r, c)] that hold [v], in the order row, column, region. *)
Definition conflicts (g : Grid) (r c : nat) (v : Z) : list string :=
  (if bool_decide (row_has g r v) then ["row"] else [])
  ++ (if bool_decide (col_has g c v) then ["column"] else [])
  ++ (if bool_decide (region_has g r c v) then ["region"] else []).

(** on a valid puzzle, a coordinate [(row letter, column digit)] and a
    digit value [d], [checkStr] answers [{valid: true}] when [d] already
    sits in the cell, and otherwise lists exactly the units holding [d], in
    the order row, column, region ([{valid: true}] when there are none). *)
Lemma checkStr_answer_aux (s : string) (a b vc : ascii) (r c d : nat) :
  puzzle_text s -> r < 9 -> to_lower a = ascii_of_nat (97 + r) ->
  c < 9 -> b = ascii_of_nat (49 + c) -> 1 <= d <= 9 -> vc = ascii_of_nat (48 + d) ->
  checkStr (Some s) (Some (String a (String b EmptyString))) (Some (String vc EmptyString))
  = if bool_decide (nth2 (buildPuzzle s) r c = Some (Num (Z.of_nat d))) then RValid
    else match conflicts (buildPuzzle s) r c (Z.of_nat d) with [] => RValid | l => RInvalid l end.
Proof.
  intros Hs Hr Ha Hc Hb Hd Hvc.
  apply (digit_char_iff b (1 + c)) in Hb as [Hbd Hbv]; [|lia].
  apply (digit_char_iff vc d) in Hvc as [Hvd Hvv]; [|lia].
  unfold checkStr. simpl js_falsy. rewrite validate_of_puzzle_text by done. simpl default.
  unfold coord_row, coord_col, invalid_value. cbn [String.get String.length].
  rewrite Ha, index_of_letter by done.
  rewrite (proj1 (parseInt_char_digit b Hbd)), (proj1 (parseInt_char_digit vc Hvd)), Hbv, Hvv.
  assert (isNaN_char (Some b) = false) as -> by (apply isNaN_char_false; auto).
  assert (isNaN_char (Some vc) = false) as -> by (apply isNaN_char_false; auto).
  cbn [js_pred js_lt js_gt negb orb Nat.eqb].
  replace (Z.of_nat (1 + c) - 1)%Z with (Z.of_nat c) by lia.
  assert ((s =? "")%string = false) as -> by (apply String.eqb_neq; intros ->; by destruct Hs).
  replace ((Z.of_nat r <? 0)%Z || (8 <? Z.of_nat r)%Z || (Z.of_nat c <? 0)%Z || (8 <? Z.of_nat c)%Z)
    with false by (symmetry; repeat rewrite orb_false_iff; repeat split; apply Z.ltb_ge; lia).
  replace ((Z.of_nat d <? 1)%Z || (9 <? Z.of_nat d)%Z)
    with false by (symmetry; rewrite orb_false_iff; split; apply Z.ltb_ge; lia).
  rewrite cell_at_nat.
  rewrite (bool_negb_decide _ _ (checkRowPlacement_spec s r _ _)),
    (bool_negb_decide _ _ (checkColPlacement_spec s _ c _)),
    (bool_negb_decide _ _ (checkRegionPlacement_spec s r c _)).
  unfold conflicts. destruct (bool_decide (nth2 _ r c = _)) eqn:E.
  - apply bool_decide_eq_true in E. rewrite E. simpl. by rewrite Z.eqb_refl.
  - apply bool_decide_eq_false in E.
    replace (nth2 (buildPuzzle s) r c === Num (Z.of_nat d)) with false
      by (symmetry; by apply js_strict_eq_false).
    by destruct (bool_decide (row_has _ _ _)), (bool_decide (col_has _ _ _)),
      (bool_decide (region_has _ _ _ _)).
Qed.

(** C19: on a valid puzzle, a coordinate [(row letter, column digit)] and a
    digit value [d], [checkStr] answers [{valid: true}] when [d] already
    sits in the cell, and otherwise lists exactly the units holding [d], in
    the order row, column, region ([{valid: true}] when there are none). *)
Theorem checkStr_answer (s : string) (a b vc : ascii) (r c d : nat) :
  puzzle_text s -> r < 9 -> to_lower a = ascii_of_nat (97 + r) ->
  c < 9 -> b = ascii_of_nat (49 + c) -> 1 <= d <= 9 -> vc = ascii_of_nat (48 + d) ->
  checkStr (Some s) (Some (String a (String b EmptyString))) (Some (String vc EmptyString))
  = if bool_decide (nth2 (buildPuzzle s) r c = Some (Num (Z.of_nat d))) then RValid
    else match conflicts (buildPuzzle s) r c (Z.of_nat d) with [] => RValid | l => RInvalid l end.
Proof. apply checkStr_answer_aux. Qed.

Lemma checkStr_answer_witness :
  puzzle_text test_puzzle /\
  checkStr (Some test_puzzle) (Some "A2"%string) (Some "8"%string)
  = if bool_decide (nth2 (buildPuzzle test_puzzle) 0 1 = Some (Num (Z.of_nat 8))) then RValid
    else match conflicts (buildPuzzle test_puzzle) 0 1 (Z.of_nat 8) with [] => RValid | l => RInvalid l end.
Proof.
  assert (H : puzzle_text test_puzzle) by decide_by_eval.
  split; [exact H|]. apply (checkStr_answer _ _ _ _ 0 1 8 H); try reflexivity; lia.
Defined.


(** [validate] answers errors only. *)
Lemma validate_error_only p r : validate p = Some r -> exists e, r = RError e.
Proof.
  unfold validate. destruct (js_falsy p); [intros [= <-]; eauto|].
  destruct (negb _); [intros [= <-]; eauto|]. destruct (negb _); [intros [= <-]; eauto|done].
Qed.

(** C20: ordering of the conflict list.  Whatever the three fields, when
    [checkStr] answers [{valid: false, conflict: l}], the list [l] is not
    empty and is a sublist of [["row"; "column"; "region"]]: each unit at
    most once, in that order, as section 6 of the spec requires of the
    wire format. *)
Theorem checkStr_conflict_order p coord v l :
  checkStr p coord v = RInvalid l -> l <> [] /\ l `sublist_of` ["row"; "column"; "region"]%string.
Proof.
  unfold checkStr. destruct (_ || _ || _); [discriminate|].
  destruct (validate p) as [err|] eqn:Ev; [destruct (validate_error_only p err Ev) as [e ->]; discriminate|].
  repeat (case_match; try discriminate); intros [= <-]; split; try done; repeat constructor.
Qed.

Lemma checkStr_conflict_order_witness :
  checkStr (Some test_puzzle) (Some "A2"%string) (Some "5"%string) = RInvalid ["row"; "region"]%string
  /\ ["row"; "region"]%string <> [] /\ ["row"; "region"]%string `sublist_of` ["row"; "column"; "region"]%string.
Proof.
  assert (H : checkStr (Some test_puzzle) (Some "A2"%string) (Some "5"%string) = RInvalid ["row"; "region"]%string)
    by (vm_compute; reflexivity).
  split; [exact H | exact (checkStr_conflict_order _ _ _ _ H)].
Defined.

(** ** The coordinate and value tests *)

Lemma js_falsy_Some (x : string) : x <> ""%string -> js_falsy (Some x) = false.
Proof. intros H. by apply String.eqb_neq. Qed.

Lemma checkStr_coord_error s coord v :
  validate (Some s) = None -> s <> ""%string -> coord <> ""%string -> v <> ""%string ->
  checkStr (Some s) (Some coord) (Some v) = RError "Invalid coordinate" <-> coord_rejected coord = true.
Proof.
  intros Hv Hs Hc Hval. unfold checkStr, coord_rejected.
  rewrite !js_falsy_Some, Hv by done. cbn [orb default from_option id].
  destruct (isNaN_char (String.get 1 coord) || negb (String.length coord =? 2)%nat); [simpl; tauto|].
  cbn [orb].
  destruct ((coord_row coord <? 0)%Z || (8 <? coord_row coord)%Z
            || js_lt (coord_col coord) 0 || js_gt (coord_col coord) 8); [simpl; tauto|].
  split; [|done]. repeat case_match; discriminate.
Qed.

(** The digit a character stands for, when it is one of [1] to [9]. *)
Lemma digit_1_9 (b : ascii) :
  is_digit b = true -> (1 <= digit_value b <= 9)%Z <-> exists d, 1 <= d <= 9 /\ b = ascii_of_nat (48 + d).
Proof.
  intros Hb. destruct (parseInt_char_digit b Hb) as [_ Hr]. split.
  - intros Hv. exists (Z.to_nat (digit_value b)). split; [lia|].
    apply digit_char_iff; [lia|]. split; [done|lia].
  - intros (d & Hd & E). apply digit_char_iff in E as [_ E]; lia.
Qed.

Lemma coordinate_ok_two (a b : ascii) :
  coordinate_ok (String a (String b EmptyString))
  <-> (exists r, r < 9 /\ to_lower a = ascii_of_nat (97 + r))
      /\ ((exists d, 1 <= d <= 9 /\ b = ascii_of_nat (48 + d)) \/ is_js_space b = true).
Proof.
  unfold coordinate_ok. split; [intros (a' & b' & [= <- <-] & H); exact H | intros H; eauto].
Qed.

(** The row test accepts exactly the letters [a] to [i], either case. *)
Lemma coord_row_ok (a : ascii) :
  ((index_of "abcdefghi" (to_lower a) <? 0)%Z || (8 <? index_of "abcdefghi" (to_lower a))%Z) = false
  <-> exists r, r < 9 /\ to_lower a = ascii_of_nat (97 + r).
Proof.
  rewrite orb_false_iff, !Z.ltb_ge.
  destruct (index_of_letters (to_lower a)) as [E|(r & Hr & E & Ei)].
  - rewrite E. split; [lia|]. intros (r & Hr & E'). rewrite E', index_of_letter in E by done. lia.
  - rewrite Ei. split; [eauto|lia].
Qed.

(** A one-character number test of [checkStr] accepts a digit [1] to [9]
    or white space. *)
Lemma digit_or_space_ok (b : ascii) :
  (isNaN_char (Some b) || js_lt (parseInt_char (Some b)) 1 || js_gt (parseInt_char (Some b)) 9) = false
  <-> (exists d, 1 <= d <= 9 /\ b = ascii_of_nat (48 + d)) \/ is_js_space b = true.
Proof.
  rewrite !orb_false_iff, isNaN_char_false. destruct (is_digit b) eqn:Hb.
  - destruct (parseInt_char_digit b Hb) as [-> Hr]. cbn [js_lt js_gt].
    rewrite Z.ltb_ge, Z.ltb_ge, <- digit_1_9 by done.
    split; [intros [[_ H1] H2]; left; lia|].
    intros [Hd|Hs]; [split; [split; [by left|lia]|lia]|].
    by rewrite (space_not_digit b Hs) in Hb.
  - rewrite parseInt_char_not_digit by done. cbn [js_lt js_gt].
    split; [intros [[[H|H] _] _]; [discriminate|by right]|].
    intros [(d & Hd & E)|Hs]; [|split; [split; [by right|done]|done]].
    apply (digit_char_iff b d) in E as [E _]; [congruence|lia].
Qed.

Lemma js_pred_bounds (x : JsNum) :
  js_lt (js_pred x) 0 = js_lt x 1 /\ js_gt (js_pred x) 8 = js_gt x 9.
Proof.
  destruct x as [z|]; [|done]. cbn. split.
  - destruct (Z.ltb_spec (z - 1) 0), (Z.ltb_spec z 1); lia.
  - destruct (Z.ltb_spec 8 (z - 1)), (Z.ltb_spec 9 z); lia.
Qed.

(** The column test accepts a digit [1] to [9] or white space. *)
Lemma coord_col_ok (b : ascii) :
  (isNaN_char (Some b) || js_lt (js_pred (parseInt_char (Some b))) 0
   || js_gt (js_pred (parseInt_char (Some b))) 8) = false
  <-> (exists d, 1 <= d <= 9 /\ b = ascii_of_nat (48 + d)) \/ is_js_space b = true.
Proof.
  destruct (js_pred_bounds (parseInt_char (Some b))) as [-> ->]. apply digit_or_space_ok.
Qed.

Lemma coord_rejected_false (coord : string) : coord_rejected coord = false <-> coordinate_ok coord.
Proof.
  unfold coord_rejected, coord_row, coord_col.
  destruct coord as [|a [|b [|x rest]]]; cbn [String.get String.length Nat.eqb negb orb].
  - split; [discriminate|]. by intros (? & ? & ? & _).
  - split; [discriminate|]. by intros (? & ? & ? & _).
  - rewrite coordinate_ok_two, <- coord_row_ok, <- coord_col_ok, !orb_false_iff. tauto.
  - rewrite orb_true_r. split; [discriminate|]. by intros (? & ? & ? & _).
Qed.

(** C21: once the three fields are present and the puzzle passes
    [validate], [checkStr] answers ["Invalid coordinate"] exactly when the
    coordinate is not two characters made of a row letter [a] to [i] (either
    case) and then a digit [1] to [9] or a white-space character. *)
Theorem checkStr_coordinate (s coord v : string) :
  validate (Some s) = None -> s <> ""%string -> coord <> ""%string -> v <> ""%string ->
  checkStr (Some s) (Some coord) (Some v) = RError "Invalid coordinate" <-> ~ coordinate_ok coord.
Proof.
  intros. rewrite checkStr_coord_error, <- coord_rejected_false by done.
  destruct (coord_rejected coord); intuition congruence.
Qed.

Lemma checkStr_coordinate_witness :
  validate (Some test_puzzle) = None /\ test_puzzle <> ""%string /\ "Z9"%string <> ""%string
  /\ "3"%string <> ""%string
  /\ (checkStr (Some test_puzzle) (Some "Z9"%string) (Some "3"%string) = RError "Invalid coordinate"
      <-> ~ coordinate_ok "Z9"%string).
Proof.
  assert (H1 : validate (Some test_puzzle) = None) by reflexivity.
  assert (H2 : test_puzzle <> ""%string) by discriminate.
  assert (H3 : "Z9"%string <> ""%string) by discriminate.
  assert (H4 : "3"%string <> ""%string) by discriminate.
  split; [exact H1|split; [exact H2|split; [exact H3|split; [exact H4|]]]].
  exact (checkStr_coordinate _ _ _ H1 H2 H3 H4).
Defined.

Lemma invalid_value_false (v : string) : invalid_value v = false <-> value_ok v.
Proof.
  unfold invalid_value, value_ok.
  destruct v as [|b [|x rest]]; cbn [String.get String.length Nat.eqb negb orb].
  - split; [discriminate|]. by intros (? & ? & _).
  - rewrite digit_or_space_ok. split; [eauto|]. by intros (b' & [= <-] & H).
  - split; [discriminate|]. by intros (? & ? & _).
Qed.

Lemma checkStr_value_error s coord v :
  validate (Some s) = None -> s <> ""%string -> coord <> ""%string -> v <> ""%string ->
  coord_rejected coord = false ->
  checkStr (Some s) (Some coord) (Some v) = RError "Invalid value" <-> invalid_value v = true.
Proof.
  intros Hv Hs Hc Hval Hok. unfold coord_rejected in Hok. apply orb_false_iff in Hok as [Hok H4].
  apply orb_false_iff in Hok as [Hok H3]. apply orb_false_iff in Hok as [Hok H2].
  apply orb_false_iff in Hok as [Hok H1]. unfold checkStr.
  rewrite !js_falsy_Some, Hv by done. cbn [orb default from_option id].
  rewrite Hok, H1, H2, H3, H4. cbn [orb].
  destruct (invalid_value v); [simpl; tauto|]. split; [|done]. repeat case_match; discriminate.
Qed.

(** C22: once the fields are present, the puzzle passes [validate] and the
    coordinate passes its test, [checkStr] answers ["Invalid value"] exactly
    when the value is not one character that is a digit [1] to [9] or white
    space. *)
Theorem checkStr_value (s coord v : string) :
  validate (Some s) = None -> s <> ""%string -> coord <> ""%string -> v <> ""%string ->
  coordinate_ok coord ->
  checkStr (Some s) (Some coord) (Some v) = RError "Invalid value" <-> ~ value_ok v.
Proof.
  intros Hv Hs Hc Hval Hok. apply coord_rejected_false in Hok.
  rewrite checkStr_value_error, <- invalid_value_false by done.
  destruct (invalid_value v); intuition congruence.
Qed.

Lemma checkStr_value_witness :
  validate (Some test_puzzle) = None /\ test_puzzle <> ""%string /\ "A2"%string <> ""%string
  /\ "tardigrade"%string <> ""%string /\ coordinate_ok "A2"%string
  /\ (checkStr (Some test_puzzle) (Some "A2"%string) (Some "tardigrade"%string) = RError "Invalid value"
      <-> ~ value_ok "tardigrade"%string).
Proof.
  assert (H1 : validate (Some test_puzzle) = None) by reflexivity.
  assert (H2 : test_puzzle <> ""%string) by discriminate.
  assert (H3 : "A2"%string <> ""%string) by discriminate.
  assert (H4 : "tardigrade"%string <> ""%string) by discriminate.
  assert (H5 : coordinate_ok "A2"%string) by (apply coord_rejected_false; reflexivity).
  split; [exact H1|split; [exact H2|split; [exact H3|split; [exact H4|split; [exact H5|]]]]].
  exact (checkStr_value _ _ _ H1 H2 H3 H4 H5).
Defined.

(** C23: [checkStr]'s first answers, in order: any absent or empty field
    gives ["Required field(s) missing"]; then a puzzle [validate] rejects
    gives [validate]'s error. *)
Theorem checkStr_errors (p coord v : option string) :
  (js_falsy coord || js_falsy v || js_falsy p = true -> checkStr p coord v = RError "Required field(s) missing")
  /\ (forall e, js_falsy coord || js_falsy v || js_falsy p = false -> validate p = Some e ->
      checkStr p coord v = e).
Proof.
  unfold checkStr. split; [intros H; by rewrite H|]. intros e H Hv. by rewrite H, Hv.
Qed.

Lemma checkStr_errors_witness :
  js_falsy None || js_falsy None || js_falsy None = true
  /\ checkStr None None None = RError "Required field(s) missing".
Proof. split; [reflexivity | exact (proj1 (checkStr_errors None None None) eq_refl)]. Defined.

(** The request fields are present and the coordinate passes its test. *)
Lemma checkStr_accepted s coord v :
  puzzle_text s -> coordinate_ok coord -> invalid_value v = false ->
  checkStr (Some s) (Some coord) (Some v)
  = let value := parseInt_char (String.get 0 v) in
    let r := Num (coord_row coord) in
    if cell_at (buildPuzzle s) r (coord_col coord) === value then RValid else
    let failList : list string := [] in
    let failList := if checkRowPlacement s r (coord_col coord) value then failList else failList ++ ["row"] in
    let failList := if checkColPlacement s r (coord_col coord) value then failList else failList ++ ["column"] in
    let failList := if checkRegionPlacement s r (coord_col coord) value then failList else failList ++ ["region"] in
    if negb (length failList =? 0)%nat then RInvalid failList else RValid.
Proof.
  intros Hs Hok Hval.
  assert (Hs' : s <> ""%string) by (intros ->; by destruct Hs).
  assert (Hc' : coord <> ""%string) by (intros ->; by destruct Hok as (? & ? & ? & _)).
  assert (Hv' : v <> ""%string) by (intros ->; discriminate).
  apply coord_rejected_false in Hok. unfold coord_rejected in Hok.
  apply orb_false_iff in Hok as [Hok H4]. apply orb_false_iff in Hok as [Hok H3].
  apply orb_false_iff in Hok as [Hok H2]. apply orb_false_iff in Hok as [Hok H1].
  unfold checkStr. rewrite !js_falsy_Some, validate_of_puzzle_text by done.
  cbn [orb default from_option id]. by rewrite Hok, H1, H2, H3, H4, Hval.
Qed.

(** C25: the value [" "] passes the value test with value NaN, which no
    cell equals: [checkStr] answers [{valid: true}] for every accepted
    coordinate, whatever the puzzle holds. *)
Theorem checkStr_space_value (s coord : string) :
  puzzle_text s -> coordinate_ok coord -> checkStr (Some s) (Some coord) (Some " "%string) = RValid.
Proof.
  intros Hs Hok. rewrite checkStr_accepted by done. cbn [String.get parseInt_char].
  change (is_digit " "%char) with false. cbn zeta iota.
  rewrite js_strict_eq_NaN. destruct (placements_NaN_value s (Num (coord_row coord)) (coord_col coord))
    as (-> & -> & ->). reflexivity.
Qed.

Lemma checkStr_space_value_witness :
  puzzle_text test_puzzle /\ coordinate_ok "A1"%string
  /\ checkStr (Some test_puzzle) (Some "A1"%string) (Some " "%string) = RValid.
Proof.
  assert (H1 : puzzle_text test_puzzle) by decide_by_eval.
  assert (H2 : coordinate_ok "A1"%string) by (apply coord_rejected_false; reflexivity).
  split; [exact H1|split; [exact H2|exact (checkStr_space_value _ _ H1 H2)]].
Defined.

(** C26: a coordinate whose second character is a space passes the
    coordinate test with column NaN; the column and region scans then read
    nothing, and [checkStr] reports at most a row conflict. *)
Theorem checkStr_space_column (s : string) (a vc : ascii) (r d : nat) :
  puzzle_text s -> r < 9 -> to_lower a = ascii_of_nat (97 + r) ->
  1 <= d <= 9 -> vc = ascii_of_nat (48 + d) ->
  checkStr (Some s) (Some (String a (String " " EmptyString))) (Some (String vc EmptyString))
  = if bool_decide (row_has (buildPuzzle s) r (Z.of_nat d)) then RInvalid ["row"] else RValid.
Proof.
  intros Hs Hr Ha Hd Hvc.
  assert (Hok : coordinate_ok (String a (String " " EmptyString))).
  { apply coordinate_ok_two. split; [eauto|by right]. }
  apply (digit_char_iff vc d) in Hvc as [Hvd Hvv]; [|lia].
  assert (Hval : invalid_value (String vc EmptyString) = false).
  { apply invalid_value_false. exists vc. split; [done|left].
    exists d. split; [lia|]. apply digit_char_iff; [lia|done]. }
  rewrite checkStr_accepted by done. unfold coord_row, coord_col. cbn [String.get].
  rewrite Ha, index_of_letter by done. change (parseInt_char (Some " "%char)) with NaN. cbn [js_pred].
  rewrite (proj1 (parseInt_char_digit vc Hvd)), Hvv, cell_at_NaN_c, checkColPlacement_NaN,
    checkRegionPlacement_NaN.
  rewrite (bool_negb_decide _ _ (checkRowPlacement_spec s r _ _)).
  by destruct (bool_decide _).
Qed.

Lemma checkStr_space_column_witness :
  puzzle_text test_puzzle
  /\ checkStr (Some test_puzzle) (Some "A "%string) (Some "1"%string)
     = if bool_decide (row_has (buildPuzzle test_puzzle) 0 (Z.of_nat 1)) then RInvalid ["row"] else RValid.
Proof.
  assert (H : puzzle_text test_puzzle) by decide_by_eval.
  split; [exact H|]. apply (checkStr_space_column _ _ _ 0 1 H); try reflexivity; lia.
Defined.

