(* ===== verification/Api.v ===== *)
(** * Api: the two public operations together

    [solve] and [checkStr] are the two operations the transport exposes
    (spec section 6); a client may solve a puzzle and then check cells of
    it.  This file states how the two agree: every value [solve] fills into
    an empty cell of a puzzle is one that [checkStr] reports valid on the
    original puzzle at that cell.  The proof composes the soundness of the
    solver ([Solver]), the rules' account of a solution ([Rules]) and the
    exact answers of [checkStr] ([CheckApi]). *)

From Stdlib Require Import ZArith String Ascii.
From stdpp Require Import base list strings.
From S2P Require Import Prelude Codec Validator Rules Placement Solver CheckApi.

(** ** Lemmas *)

(** A value free in the units of a cell conflicts with none of them. *)
Lemma conflicts_unit_free g r c v :
  r < 9 -> c < 9 -> unit_free g r c v -> conflicts g r c v = [].
Proof.
  intros Hr Hc (Hrow & Hcol & Hreg)%placement_ok_unit_free; [|done|done].
  unfold conflicts. by rewrite !bool_decide_eq_false_2.
Qed.

(** The value a solution holds at a cell, as the digit the cell shows. *)
Lemma solution_digit p sol r c (d : nat) :
  solution_of p sol -> r < 9 -> c < 9 -> nth2 sol r c = Some (Num (Z.of_nat d)) -> 1 <= d <= 9.
Proof.
  intros (_ & Hfill & _) Hr Hc Hd. specialize (Hfill r c Hr Hc).
  unfold filled_cell in Hfill. rewrite Hd in Hfill. lia.
Qed.

(** C17: composition of [solve] and [checkStr].  When the filled cells of a
    valid puzzle obey the rules and [solve] answers [{solution: out}],
    checking on the original puzzle any empty cell against the digit [out]
    holds there answers [{valid: true}]: the solver only fills in values
    the public check accepts. *)
Theorem solve_then_check (s out : string) (a b vc : ascii) (r c d : nat) :
  puzzle_text s -> consistent (buildPuzzle s) -> solve (Some s) = RSolution out ->
  r < 9 -> to_lower a = ascii_of_nat (97 + r) -> c < 9 -> b = ascii_of_nat (49 + c) ->
  nth2 (buildPuzzle s) r c = Some (Num 0) ->
  nth2 (buildPuzzle out) r c = Some (Num (Z.of_nat d)) -> vc = ascii_of_nat (48 + d) ->
  checkStr (Some s) (Some (String a (String b EmptyString))) (Some (String vc EmptyString)) = RValid.
Proof.
  intros Hs Hcons Hout Hr Ha Hc Hb H0 Hd Hvc.
  pose proof (solve_solution_sound s out Hs Hcons Hout) as Hsol.
  pose proof (solution_digit _ _ r c d Hsol Hr Hc Hd) as Hd19.
  destruct Hsol as (_ & _ & Hcons' & Hext).
  rewrite (checkStr_answer_aux s a b vc r c d) by done.
  rewrite bool_decide_eq_false_2 by (rewrite H0; intros [= ?]; lia).
  rewrite conflicts_unit_free; [done|done|done|].
  eapply unit_free_solution; eauto. lia.
Qed.

Lemma solve_then_check_witness :
  puzzle_text test_puzzle /\ consistent (buildPuzzle test_puzzle)
  /\ solve (Some test_puzzle) = RSolution test_solution
  /\ nth2 (buildPuzzle test_puzzle) 0 1 = Some (Num 0)
  /\ nth2 (buildPuzzle test_solution) 0 1 = Some (Num (Z.of_nat 3))
  /\ checkStr (Some test_puzzle) (Some "A2"%string) (Some "3"%string) = RValid.
Proof.
  assert (Hs : puzzle_text test_puzzle) by decide_by_eval.
  assert (Hc : consistent (buildPuzzle test_puzzle)) by decide_by_eval.
  assert (Hout : solve (Some test_puzzle) = RSolution test_solution) by (vm_compute; reflexivity).
  assert (H0 : nth2 (buildPuzzle test_puzzle) 0 1 = Some (Num 0)) by reflexivity.
  assert (Hd : nth2 (buildPuzzle test_solution) 0 1 = Some (Num (Z.of_nat 3))) by reflexivity.
  split; [exact Hs|split; [exact Hc|split; [exact Hout|split; [exact H0|split; [exact Hd|]]]]].
  exact (solve_then_check test_puzzle test_solution "A" "2" "3" 0 1 3 Hs Hc Hout
           ltac:(lia) eq_refl ltac:(lia) eq_refl H0 Hd eq_refl).
Defined.
